(** * pdf_watcher: classification and index synchronisation

    A shallow embedding of [src/pdf_watcher.py]: the two-stage classifier
    ([detect_company], [detect_insurance_type]), the entry builder
    ([extract_metadata]), the metadata store ([MetaFileManager]) and the
    ingestion handlers ([PDFEventHandler], [process_existing_pdfs]).

    Conventions.
    - A Python [str] is a Stdlib [string]; one [ascii] stands for one code
      point below 256, and [isspace]/[lower] are Python's on that range.
    - [pathlib.Path] is the POSIX flavour (case-sensitive components).
    - Code that may raise returns [exn A]; [try ... except Exception] is a
      match on it.
    - [print] calls and [time.sleep] have no effect on the modelled state
      and are left out. *)

From Stdlib Require Import String Ascii List ZArith QArith Bool Lia.
Import ListNotations.

Local Open Scope string_scope.
Local Open Scope list_scope.
Local Open Scope Z_scope.

Set Implicit Arguments.

(* ------------------------------------------------------------------ *)
(** ** Raising computations *)

Inductive exn (A : Type) : Type :=
| Raise : exn A
| Return : A -> exn A.
Arguments Raise {A}.
Arguments Return {A} _.

Definition bind {A B : Type} (m : exn A) (k : A -> exn B) : exn B :=
  match m with
  | Raise => Raise
  | Return a => k a
  end.

Notation "x <- m ;; k" := (bind m (fun x => k))
  (at level 61, m at next level, right associativity).

(** [try: m except: h] is [try: return m  except Exception: return h]. *)
Definition try_except {A : Type} (m : exn A) (h : A) : A :=
  match m with
  | Raise => h
  | Return a => a
  end.

(** [d.get(key, default)] on a key that may be missing, and [x or default]
    on a value that may be [None]. *)
Definition get {A : Type} (field : option A) (default : A) : A :=
  match field with
  | Some a => a
  | None => default
  end.

(* ------------------------------------------------------------------ *)
(** ** Python [str] operations used by the watcher *)

Module Str.

Definition len (s : string) : Z := Z.of_nat (String.length s).

Definition is_empty (s : string) : bool :=
  match s with
  | EmptyString => true
  | String _ _ => false
  end.

(** [s.startswith(p)] *)
Fixpoint startswith (p s : string) : bool :=
  match p, s with
  | EmptyString, _ => true
  | String _ _, EmptyString => false
  | String a p', String b s' => Ascii.eqb a b && startswith p' s'
  end.

(** [sub in s]: literal, case-sensitive containment. *)
Fixpoint contains (sub s : string) : bool :=
  startswith sub s ||
  match s with
  | EmptyString => false
  | String _ s' => contains sub s'
  end.

(** [str.isspace] on one code point below 256. *)
Definition isspace (c : ascii) : bool :=
  let n := Z.of_nat (nat_of_ascii c) in
  ((9 <=? n) && (n <=? 13)) || ((28 <=? n) && (n <=? 32))
  || (n =? 133) || (n =? 160).

Fixpoint lstrip (s : string) : string :=
  match s with
  | EmptyString => EmptyString
  | String c s' => if isspace c then lstrip s' else s
  end.

Fixpoint rstrip (s : string) : string :=
  match s with
  | EmptyString => EmptyString
  | String c s' =>
      let r := rstrip s' in
      if isspace c && is_empty r then EmptyString else String c r
  end.

(** [s.strip()] *)
Definition strip (s : string) : string := rstrip (lstrip s).

(** [str.lower] on one code point below 256: A-Z and the upper-case
    Latin-1 letters (0xC0-0xDE without 0xD7) move up by 32. *)
Definition lower_char (c : ascii) : ascii :=
  let n := Z.of_nat (nat_of_ascii c) in
  if ((65 <=? n) && (n <=? 90))
     || ((192 <=? n) && (n <=? 222) && negb (n =? 215))
  then ascii_of_nat (nat_of_ascii c + 32)
  else c.

Fixpoint lower (s : string) : string :=
  match s with
  | EmptyString => EmptyString
  | String c s' => String (lower_char c) (lower s')
  end.

(** [s.rfind(c)]: index of the last occurrence of [c], [-1] if none.
    [i] is the index of the head of [s], [acc] the best index so far. *)
Fixpoint rfind_from (c : ascii) (s : string) (i acc : Z) : Z :=
  match s with
  | EmptyString => acc
  | String a s' => rfind_from c s' (i + 1) (if Ascii.eqb a c then i else acc)
  end.

Definition rfind (c : ascii) (s : string) : Z := rfind_from c s 0 (-1).

(** [s[:n]] and [s[n:]] for [0 <= n]. *)
Fixpoint take (n : nat) (s : string) : string :=
  match n, s with
  | O, _ => EmptyString
  | S _, EmptyString => EmptyString
  | S n', String c s' => String c (take n' s')
  end.

Fixpoint drop (n : nat) (s : string) : string :=
  match n, s with
  | O, _ => s
  | S _, EmptyString => EmptyString
  | S n', String _ s' => drop n' s'
  end.

(** [s.split(sep)] for a one-character separator. *)
Fixpoint split (sep : ascii) (s : string) : list string :=
  match s with
  | EmptyString => [EmptyString]
  | String c s' =>
      if Ascii.eqb c sep then EmptyString :: split sep s'
      else match split sep s' with
           | [] => [String c EmptyString]
           | h :: t => String c h :: t
           end
  end.

(** [sep.join(parts)] *)
Fixpoint join (sep : string) (parts : list string) : string :=
  match parts with
  | [] => EmptyString
  | [p] => p
  | p :: rest => (p ++ sep ++ join sep rest)%string
  end.

(** [s.split(sep)] for a separator of several characters: the leftmost
    occurrences, not overlapping. [skip] counts the characters of a
    separator that are still to be passed over. *)
Fixpoint split_str_from (sep s : string) (skip : nat) : list string :=
  match s with
  | EmptyString => [EmptyString]
  | String c s' =>
      match skip with
      | S k => split_str_from sep s' k
      | O =>
          if startswith sep s
          then EmptyString :: split_str_from sep s' (String.length sep - 1)
          else match split_str_from sep s' 0 with
               | [] => [String c EmptyString]
               | h :: t => String c h :: t
               end
      end
  end.

Definition split_str (sep s : string) : list string := split_str_from sep s 0.

(** What a text-mode read makes of the characters of a file: a carriage
    return, with or without a line feed after it, becomes a line feed. *)
Fixpoint universal_newlines (s : string) : string :=
  match s with
  | EmptyString => EmptyString
  | String c s' =>
      if Ascii.eqb c "013"
      then String "010"
                  match s' with
                  | EmptyString => EmptyString
                  | String c' s'' =>
                      if Ascii.eqb c' "010" then universal_newlines s''
                      else universal_newlines s'
                  end
      else String c (universal_newlines s')
  end.

End Str.

(* ------------------------------------------------------------------ *)
(** ** [pathlib.PurePosixPath] *)

Module PurePath.

(** A parsed path: the root ([""], ["/"] or ["//"]) and the components
    after it. *)
Record t : Type := mk { root : string; parts : list string }.

(** [splitroot]: one or at least three leading slashes give root ["/"],
    exactly two give ["//"]. *)
Definition splitroot (part : string) : string * string :=
  match part with
  | String "/" rest =>
      let stripped := (fix lstrip_sep (s : string) : string :=
                         match s with
                         | String "/" s' => lstrip_sep s'
                         | _ => s
                         end) part in
      if (Str.len part - Str.len stripped =? 2)
      then ("//", stripped) else ("/", stripped)
  | _ => ("", part)
  end.

Definition keep_part (x : string) : bool :=
  negb (Str.is_empty x) && negb (String.eqb x ".").

(** [Path(s)]: empty and ["."] components are dropped. *)
Definition parse (s : string) : t :=
  let '(rt, rel) := splitroot s in
  mk rt (filter keep_part (Str.split "/" rel)).

(** [p.name] *)
Definition name (p : t) : string := last (parts p) "".

(** [p.suffix] *)
Definition suffix (p : t) : string :=
  let nm := name p in
  let i := Str.rfind "." nm in
  if (0 <? i) && (i <? Str.len nm - 1) then Str.drop (Z.to_nat i) nm else "".

(** [p.stem] *)
Definition stem (p : t) : string :=
  let nm := name p in
  let i := Str.rfind "." nm in
  if (0 <? i) && (i <? Str.len nm - 1) then Str.take (Z.to_nat i) nm else nm.

(** [p.parent] *)
Definition parent (p : t) : t :=
  match parts p with
  | [] => p
  | _ => mk (root p) (removelast (parts p))
  end.

(** [p / child] for a single plain component. *)
Definition joinpath (p : t) (child : string) : t :=
  mk (root p) (parts p ++ [child]).

(** [str(p)] *)
Definition to_str (p : t) : string :=
  let s := (root p ++ Str.join "/" (parts p))%string in
  if Str.is_empty s then "." else s.

(** [p == q] *)
Definition eqb (p q : t) : bool :=
  String.eqb (root p) (root q)
  && (if list_eq_dec string_dec (parts p) (parts q) then true else false).

End PurePath.

(* ------------------------------------------------------------------ *)
(** ** Shell-style wildcards, as [Path.glob] matches one component *)

Module Glob.

Inductive token : Type :=
| Star                    (* [*]: any run of characters *)
| Any                     (* [?]: exactly one character *)
| Lit (c : ascii).

Fixpoint tokens (pat : string) : list token :=
  match pat with
  | EmptyString => []
  | String "*" p => Star :: tokens p
  | String "?" p => Any :: tokens p
  | String c p => Lit c :: tokens p
  end.

(** The whole of [s] has to match (the translated pattern ends in [\Z]);
    on POSIX the comparison is case-sensitive. *)
Fixpoint matches (pat : list token) (s : string) : bool :=
  match pat with
  | [] => Str.is_empty s
  | Star :: pat' =>
      (fix skip (s : string) : bool :=
         matches pat' s ||
         match s with
         | EmptyString => false
         | String _ s' => skip s'
         end) s
  | Any :: pat' =>
      match s with
      | EmptyString => false
      | String _ s' => matches pat' s'
      end
  | Lit c :: pat' =>
      match s with
      | EmptyString => false
      | String a s' => Ascii.eqb a c && matches pat' s'
      end
  end.

Definition fnmatch (name pat : string) : bool := matches (tokens pat) name.

End Glob.

(* ------------------------------------------------------------------ *)
(** ** Insertion-ordered dictionaries (Python [dict] with [str] keys) *)

Module Dict.

Section WithValue.
Variable V : Type.

Definition t : Type := list (string * V).

(** [k in d] *)
Fixpoint mem (k : string) (d : t) : bool :=
  match d with
  | [] => false
  | (k', _) :: d' => String.eqb k' k || mem k d'
  end.

(** [d[k] = v]: an existing key keeps its position, a new one goes
    last. *)
Fixpoint set (k : string) (v : V) (d : t) : t :=
  match d with
  | [] => [(k, v)]
  | (k', v') :: d' =>
      if String.eqb k' k then (k', v) :: d' else (k', v') :: set k v d'
  end.

(** [del d[k]] for a key that is present. *)
Fixpoint del (k : string) (d : t) : t :=
  match d with
  | [] => []
  | (k', v') :: d' =>
      if String.eqb k' k then d' else (k', v') :: del k d'
  end.

(** [d.values()] and [d.keys()], in insertion order. *)
Definition values (d : t) : list V := map snd d.
Definition keys (d : t) : list string := map fst d.

End WithValue.

End Dict.

(* ------------------------------------------------------------------ *)
(** ** The outside world *)

(** A bounding box [(x0, top, x1, bottom)]. *)
Definition BBox : Type := (Q * Q * Q * Q)%type.

(** A page of an opened PDF, as [pdfplumber] presents it:
    [crop_extract_text bbox tol] is [page.crop(bbox).extract_text(x_tolerance=tol)]
    and [extract_text tol] is [page.extract_text(x_tolerance=tol)]. Either
    may raise, and a page without text gives [None]. *)
Record Page : Type := {
  crop_extract_text : BBox -> Z -> exn (option string);
  extract_text : Z -> exn (option string)
}.

(** [hashlib.sha256], kept abstract. *)
Record Hashlib : Type := {
  sha_state : Type;
  sha256 : sha_state;
  update : sha_state -> string -> sha_state;
  hexdigest : sha_state -> string
}.

Record World : Type := {
  hashlib : Hashlib;
  (** [open(path, "rb")] and the bytes of the file; raises if it cannot
      be opened. *)
  open_rb : string -> exn string;
  (** [pdfplumber.open(path).pages]; raises if the file is no PDF. *)
  pdfplumber_open : string -> exn (list Page);
  (** The entry names of a directory, in the order the system lists them. *)
  scandir : string -> list string;
  (** Whether [open(meta_file_path, "w")] succeeds. Once the file is open
      the writes are taken to succeed: an error in the middle of a rewrite,
      which would leave a truncated file, is outside this model. *)
  meta_writable : bool
}.

(* ------------------------------------------------------------------ *)
(** ** Configuration ([companies.json]) *)

(** One region of a profile; a key that the JSON object lacks is [None]. *)
Record Coord : Type := {
  c_x0 : option Q;
  c_y0 : option Q;
  c_x1 : option Q;
  c_y1 : option Q;
  c_page : option Z
}.

Record CompanyConfig : Type := {
  cfg_company : option string;
  cfg_coordinates : option (list Coord);
  cfg_insurance_types : option (Dict.t (list string))
}.

(** ** [MetaEntry] *)

Record MetaEntry : Type := {
  name : string;
  file_hash : string;
  company : string;
  insurance_type : string
}.

(* ------------------------------------------------------------------ *)
(** ** [PDFMetadataExtractor] *)

Record PDFMetadataExtractor : Type := {
  companies_config : list CompanyConfig;
  x_tolerance : Z
}.

(** One call of the region accessor: the zero-based page and the box. *)
Definition Query : Type := (Z * BBox)%type.

Section Extractor.

Variable w : World.

(** The blocks that [iter(lambda: f.read(4096), b"")] yields. *)
Fixpoint read_blocks (fuel : nat) (content : string) : list string :=
  match fuel with
  | O => []
  | S fuel' =>
      let byte_block := Str.take 4096 content in
      if Str.is_empty byte_block then []
      else byte_block :: read_blocks fuel' (Str.drop 4096 content)
  end.

Definition compute_file_hash (file_path : string) : exn string :=
  content <- open_rb w file_path ;;
  let sha256_hash :=
    fold_left (update (hashlib w))
              (read_blocks (S (String.length content)) content)
              (sha256 (hashlib w)) in
  Return (hexdigest (hashlib w) sha256_hash).

(** [None] is the page-absent answer; it is also what any exception
    raised while opening, cropping or extracting turns into. *)
Definition extract_text_from_region
    (pdf_path : string) (x1 y1 x2 y2 : Q) (page_num : Z) (x_tol : Z)
  : option string :=
  try_except
    (pages <- pdfplumber_open w pdf_path ;;
     if (page_num >=? Z.of_nat (length pages)) || (page_num <? 0)
     then Return None
     else
       match nth_error pages (Z.to_nat page_num) with
       | None => Raise
       | Some page =>
           extracted <- crop_extract_text page (x1, y1, x2, y2) x_tol ;;
           let text := get extracted "" in        (* [... or ""] *)
           Return (Some (Str.strip text))
       end)
    None.

(** A negative [page_num] passes the length test and counts from the
    end, as Python's list indexing does. *)
Definition extract_full_page_text
    (pdf_path : string) (page_num : Z) (x_tol : Z) : string :=
  try_except
    (pages <- pdfplumber_open w pdf_path ;;
     if page_num >=? Z.of_nat (length pages)
     then Return ""
     else
       let idx := if page_num <? 0
                  then page_num + Z.of_nat (length pages) else page_num in
       match (if idx <? 0 then None else nth_error pages (Z.to_nat idx)) with
       | None => Raise
       | Some page =>
           extracted <- extract_text page x_tol ;;
           let text := get extracted "" in        (* [... or ""] *)
           Return text
       end)
    "".

Variable self : PDFMetadataExtractor.

(** The page and box that [detect_company] asks for at one [coord]. *)
Definition coord_query (coord : Coord) : Query :=
  let x1 := get (c_x0 coord) 0%Q in
  let y1 := get (c_y0 coord) 0%Q in
  let x2 := get (c_x1 coord) 0%Q in
  let y2 := get (c_y1 coord) 0%Q in
  let page := get (c_page coord) 1 - 1 in
  (page, (x1, y1, x2, y2)).

(** The accessor at a query, with the extractor's tolerance. *)
Definition text_at (pdf_path : string) (q : Query) : option string :=
  let '(page, (x1, y1, x2, y2)) := q in
  extract_text_from_region pdf_path x1 y1 x2 y2 page (x_tolerance self).

(** The inner loop of [detect_company] over one profile's regions. The
    second component lists the accessor calls made, in order. *)
Fixpoint scan_coordinates
    (pdf_path company_name : string) (coordinates : list Coord)
  : option string * list Query :=
  match coordinates with
  | [] => (None, [])
  | coord :: rest =>
      let q := coord_query coord in
      let continue :=
        let '(r, qs) := scan_coordinates pdf_path company_name rest in
        (r, q :: qs) in
      match text_at pdf_path q with
      | None => continue
      | Some text =>
          if Str.contains company_name text
          then (Some company_name, [q])
          else continue
      end
  end.

(** The outer loop; a [Some] from the inner loop is the [return]. *)
Fixpoint scan_companies (pdf_path : string) (configs : list CompanyConfig)
  : option string * list Query :=
  match configs with
  | [] => (None, [])
  | company_config :: rest =>
      let company_name := get (cfg_company company_config) "" in
      let coordinates := get (cfg_coordinates company_config) [] in
      match scan_coordinates pdf_path company_name coordinates with
      | (Some found, qs) => (Some found, qs)
      | (None, qs) =>
          let '(r, qs') := scan_companies pdf_path rest in
          (r, qs ++ qs')
      end
  end.

Definition detect_company_run (pdf_path : string)
  : option string * list Query :=
  scan_companies pdf_path (companies_config self).

Definition detect_company (pdf_path : string) : option string :=
  fst (detect_company_run pdf_path).

(** [not s] for an [Optional[str]]: true on [None] and on [""]. *)
Definition falsy (s : option string) : bool :=
  match s with
  | None => true
  | Some s' => Str.is_empty s'
  end.

(** The first profile with [config.get("company") == company_name]. *)
Fixpoint find_config (company_name : string) (configs : list CompanyConfig)
  : option CompanyConfig :=
  match configs with
  | [] => None
  | config :: rest =>
      match cfg_company config with
      | Some c => if String.eqb c company_name then Some config
                  else find_config company_name rest
      | None => find_config company_name rest
      end
  end.

Fixpoint match_representations
    (full_text : string) (text_representations : list string) : bool :=
  match text_representations with
  | [] => false
  | text_repr :: rest =>
      if Str.contains text_repr full_text then true
      else match_representations full_text rest
  end.

Fixpoint match_types
    (full_text : string) (insurance_types : Dict.t (list string))
  : option string :=
  match insurance_types with
  | [] => None
  | (type_id, text_representations) :: rest =>
      if match_representations full_text text_representations
      then Some type_id
      else match_types full_text rest
  end.

Definition detect_insurance_type
    (pdf_path : string) (company_name : option string) : option string :=
  if falsy company_name then None
  else
    match company_name with
    | None => None
    | Some cname =>
        (* a profile that is found has the key ["company"], so the
           [if not company_config] test only catches [None] *)
        match find_config cname (companies_config self) with
        | None => None
        | Some company_config =>
            let insurance_types :=
              get (cfg_insurance_types company_config) [] in
            let full_text :=
              extract_full_page_text pdf_path 0 (x_tolerance self) in
            match_types full_text insurance_types
        end
    end.

Definition extract_metadata (pdf_path : string) : exn (option MetaEntry) :=
  let name := PurePath.name (PurePath.parse pdf_path) in
  file_hash <- compute_file_hash pdf_path ;;
  let company := detect_company pdf_path in
  let insurance_type := detect_insurance_type pdf_path company in
  if falsy company || falsy insurance_type then Return None
  else
    match company, insurance_type with
    | Some c, Some t =>
        Return (Some {| name := name;
                        file_hash := file_hash;
                        company := c;
                        insurance_type := t |})
    | _, _ => Return None
    end.

End Extractor.

(* ------------------------------------------------------------------ *)
(** ** [MetaFileManager] and the index file *)

(** The manager's dictionary together with the file it owns.
    [save_calls] counts the invocations of [save]. *)
Record Store : Type := {
  entries : Dict.t MetaEntry;
  index_file : option string;        (* [None]: the file does not exist *)
  save_calls : nat
}.

(** [MetaFileManager.__init__]: an empty dictionary; the index file is
    whatever an earlier run left behind. *)
Definition init_store (on_disk : option string) : Store :=
  {| entries := []; index_file := on_disk; save_calls := 0 |}.

(** The five [f.write] calls for one entry. *)
Definition write_entry (entry : MetaEntry) : string :=
  ("---" ++ String "010" ""
   ++ name entry ++ String "010" ""
   ++ file_hash entry ++ String "010" ""
   ++ company entry ++ String "010" ""
   ++ insurance_type entry ++ String "010" "")%string.

Definition serialize (d : Dict.t MetaEntry) : string :=
  String.concat "" (map write_entry (Dict.values d)).

Section Manager.

Variable w : World.

(** [save]: a full rewrite; if the file cannot be opened the error is
    printed and the file keeps its content. Only this failure is
    modelled: see [meta_writable]. *)
Definition save (st : Store) : Store :=
  {| entries := entries st;
     index_file := if meta_writable w
                   then Some (serialize (entries st))
                   else index_file st;
     save_calls := S (save_calls st) |}.

Definition add_or_update
    (entry : MetaEntry) (save_immediately : bool) (st : Store) : Store :=
  let st' := {| entries := Dict.set (name entry) entry (entries st);
                index_file := index_file st;
                save_calls := save_calls st |} in
  if save_immediately then save st' else st'.

Definition remove (nm : string) (st : Store) : Store :=
  if Dict.mem nm (entries st)
  then save {| entries := Dict.del nm (entries st);
               index_file := index_file st;
               save_calls := save_calls st |}
  else st.

End Manager.

(* ------------------------------------------------------------------ *)
(** ** [PDFEventHandler] *)

Record PDFEventHandler : Type := {
  extractor : PDFMetadataExtractor;
  watch_directory : PurePath.t
}.

Record Event : Type := {
  is_directory : bool;
  src_path : string
}.

Section Handler.

Variable w : World.
Variable self : PDFEventHandler.

Definition _is_pdf_in_root (path : string) : bool :=
  let file_path := PurePath.parse path in
  if negb (String.eqb (Str.lower (PurePath.suffix file_path)) ".pdf")
  then false
  else if negb (PurePath.eqb (PurePath.parent file_path)
                             (watch_directory self))
  then false
  else true.

(** Any exception of [extract_metadata] is printed and the store is
    left as it was. *)
Definition _process_pdf (path : string) (st : Store) : Store :=
  try_except
    (entry <- extract_metadata w (extractor self) path ;;
     match entry with
     | None => Return st
     | Some e => Return (add_or_update w e true st)
     end)
    st.

Definition on_created (event : Event) (st : Store) : Store :=
  if is_directory event then st
  else if _is_pdf_in_root (src_path event)
  then _process_pdf (src_path event) st
  else st.

Definition on_modified (event : Event) (st : Store) : Store :=
  if is_directory event then st
  else if _is_pdf_in_root (src_path event)
  then _process_pdf (src_path event) st
  else st.

Definition on_deleted (event : Event) (st : Store) : Store :=
  if is_directory event then st
  else
    let file_path := PurePath.parse (src_path event) in
    if String.eqb (Str.lower (PurePath.suffix file_path)) ".pdf"
       && PurePath.eqb (PurePath.parent file_path) (watch_directory self)
    then remove w (PurePath.stem file_path) st
    else st.

End Handler.

(* ------------------------------------------------------------------ *)
(** ** Startup reconciliation *)

Section Startup.

Variable w : World.

(** [list(watch_path.glob("*.pdf"))], each as [str(pdf_file)]. *)
Definition glob_pdf (watch_directory : string) : list string :=
  let watch_path := PurePath.parse watch_directory in
  map (fun nm => PurePath.to_str (PurePath.joinpath watch_path nm))
      (filter (fun nm => Glob.fnmatch nm "*.pdf")
              (scandir w (PurePath.to_str watch_path))).

(** The body of the [for] loop, on the store and [count]. *)
Definition process_one
    (ex : PDFMetadataExtractor) (acc : Store * nat) (pdf_file : string)
  : Store * nat :=
  let '(st, count) := acc in
  try_except
    (entry <- extract_metadata w ex pdf_file ;;
     match entry with
     | None => Return (st, count)                       (* [continue] *)
     | Some e => Return (add_or_update w e false st, (count + 1)%nat)
     end)
    (st, count).

Definition process_existing_pdfs
    (watch_directory : string) (ex : PDFMetadataExtractor) (st : Store)
  : Store :=
  let pdf_files := glob_pdf watch_directory in
  match pdf_files with
  | [] => st
  | _ =>
      let '(st', count) := fold_left (process_one ex) pdf_files (st, 0%nat) in
      if (0 <? count)%nat then save w st' else st'
  end.

End Startup.

(* ------------------------------------------------------------------ *)
(** ** [MetaFileManager.load] and the index file's path *)

(** [watch_directory / f"{watch_directory.name}.meta"] *)
Definition meta_file_path (watch_dir : PurePath.t) : PurePath.t :=
  PurePath.joinpath watch_dir (PurePath.name watch_dir ++ ".meta")%string.

(** One pass of the loop over the blocks: the entry that the block gives,
    if it is not blank and has four lines or more. *)
Definition parse_block (block : string) : option MetaEntry :=
  let block := Str.strip block in
  if Str.is_empty block then None
  else
    match Str.split "010" block with
    | l0 :: l1 :: l2 :: l3 :: _ =>
        Some {| name := Str.strip l0;
                file_hash := Str.strip l1;
                company := Str.strip l2;
                insurance_type := Str.strip l3 |}
    | _ => None
    end.

Definition load_blocks (blocks : list string) : Dict.t MetaEntry :=
  fold_left (fun d block => match parse_block block with
                            | Some e => Dict.set (name e) e d
                            | None => d
                            end) blocks [].

(** [load]: the dictionary is emptied first; [readable] says whether
    opening and reading the file succeed (if not, the error is printed
    and the dictionary stays empty). *)
Definition load (readable : bool) (st : Store) : Store :=
  {| entries :=
       match index_file st with
       | None => []
       | Some raw =>
           if readable
           then load_blocks (Str.split_str "---" (Str.universal_newlines raw))
           else []
       end;
     index_file := index_file st;
     save_calls := save_calls st |}.

(* ------------------------------------------------------------------ *)
(** ** [pdf_data_extractor]: text at labelled selections *)

Module DataExtractor.

(** What [page.crop(bbox).extract_text(x_tolerance=tol)] comes to. The
    loop of [extract_text_from_coordinates] catches [ValueError] (a box
    outside the page) and nothing else. *)
Inductive outcome : Type :=
| ValueError
| OtherError
| Extracted (page_text : option string).

Record Page : Type := {
  crop_extract_text : BBox -> Q -> outcome
}.

(** One entry of the selections file. *)
Record Selection : Type := {
  label : string;
  page : option Z;                      (* [None]: JSON [null] *)
  coordinates : BBox
}.

Section WithDocuments.

(** [pdfplumber.open(path).pages]; raises if the file cannot be opened. *)
Variable pdfplumber_open : string -> exn (list Page).

(** The loop over [pages_to_process], from the text gathered so far. *)
Fixpoint gather (pages : list Page) (bbox : BBox) (x_tol : Q)
         (full_text : string) : exn string :=
  match pages with
  | [] => Return full_text
  | page :: rest =>
      match crop_extract_text page bbox x_tol with
      | ValueError => gather rest bbox x_tol full_text       (* [continue] *)
      | OtherError => Raise
      | Extracted page_text =>
          if falsy page_text then gather rest bbox x_tol full_text
          else gather rest bbox x_tol
                      (full_text ++ get page_text "" ++ String "010" "")%string
      end
  end.

(** [if page_number:] is false for [None] and for 0. *)
Definition pages_to_process (pages : list Page) (page_number : option Z)
  : list Page :=
  match page_number with
  | Some n =>
      if n =? 0 then pages
      else if (1 <=? n) && (n <=? Z.of_nat (length pages))
      then match nth_error pages (Z.to_nat (n - 1)) with
           | Some page => [page]
           | None => pages
           end
      else pages
  | None => pages
  end.

Definition extract_text_from_coordinates
    (input_file : string) (bbox : BBox) (page_number : option Z) (x_tol : Q)
  : exn string :=
  pages <- pdfplumber_open input_file ;;
  full_text <- gather (pages_to_process pages page_number) bbox x_tol "" ;;
  Return (Str.strip full_text).

(** The loop of [extract_data_from_pdf] over the selections. *)
Fixpoint extract_selections
    (pdf_file : string) (selections : list Selection) (x_tol : Q)
    (extracted_data : Dict.t string) : exn (Dict.t string) :=
  match selections with
  | [] => Return extracted_data
  | selection :: rest =>
      text <- extract_text_from_coordinates
                pdf_file (coordinates selection) (page selection) x_tol ;;
      extract_selections pdf_file rest x_tol
                         (Dict.set (label selection) text extracted_data)
  end.

Definition extract_data_from_pdf
    (pdf_file : string) (selections : list Selection) (x_tol : Q)
  : exn (Dict.t string) :=
  extract_selections pdf_file selections x_tol [].

End WithDocuments.

End DataExtractor.

(* ------------------------------------------------------------------ *)
(** ** Specification vocabulary *)

(** The dictionary discipline of the store: every record sits under its
    own name and no name occurs twice. *)
Definition store_ok (d : Dict.t MetaEntry) : Prop :=
  NoDup (Dict.keys d) /\ Forall (fun kv => fst kv = name (snd kv)) d.

(** The index file holds what a flush of the dictionary writes. *)
Definition in_sync (st : Store) : Prop :=
  index_file st = Some (serialize (entries st)).

(** What the observer does with one file-system event. *)
Inductive step (w : World) (self : PDFEventHandler) : Store -> Store -> Prop :=
| step_created : forall event st, step w self st (on_created w self event st)
| step_modified : forall event st, step w self st (on_modified w self event st)
| step_deleted : forall event st, step w self st (on_deleted w self event st).

(** The stores of a run of [main] on the directory [watch_dir], where
    [on_disk] is the index file that the run finds: a fresh manager, the
    startup pass, then the events as they come. *)
Inductive reachable (w : World) (ex : PDFMetadataExtractor)
          (watch_dir : string) (on_disk : option string) : Store -> Prop :=
| reach_start :
    reachable w ex watch_dir on_disk
      (process_existing_pdfs w watch_dir ex (init_store on_disk))
| reach_step : forall st st',
    reachable w ex watch_dir on_disk st ->
    step w {| extractor := ex; watch_directory := PurePath.parse watch_dir |}
         st st' ->
    reachable w ex watch_dir on_disk st'.

(** A field that a line of the index file carries unchanged: one line,
    free of the record separator, with no blank at either end. *)
Definition clean_field (f : string) : Prop :=
  Str.contains (String "010" "") f = false
  /\ Str.contains (String "013" "") f = false
  /\ Str.contains "---" f = false
  /\ Str.strip f = f.

Definition clean_entry (e : MetaEntry) : Prop :=
  clean_field (name e) /\ clean_field (file_hash e)
  /\ clean_field (company e) /\ clean_field (insurance_type e)
  /\ name e <> "" /\ insurance_type e <> "".

(** The four lines of a record, and the block between two separators
    that [save] writes for it. *)
Definition record_lines (e : MetaEntry) : string :=
  (name e ++ String "010" (file_hash e ++ String "010" (company e
   ++ String "010" (insurance_type e))))%string.

Definition record_block (e : MetaEntry) : string :=
  String "010" (record_lines e ++ String "010" "")%string.

(** The hashing primitive is a stream hash: feeding two blocks one after
    the other is feeding their concatenation. *)
Definition streaming (h : Hashlib) : Prop :=
  (forall st, update h st "" = st)
  /\ (forall st a b, update h st (a ++ b)%string = update h (update h st a) b).

(** A path component as a directory lists it: not empty, not ["."], and
    without a slash. *)
Definition plain_name (x : string) : Prop :=
  PurePath.keep_part x = true /\ Str.contains "/" x = false.

(** A text that does not begin with a slash. *)
Definition head_not_slash (s : string) : Prop :=
  match s with
  | String c _ => Ascii.eqb c "/" = false
  | EmptyString => True
  end.

(** A path as [Path(...)] builds it. *)
Definition parsed_path (p : PurePath.t) : Prop :=
  In (PurePath.root p) [""; "/"; "//"] /\ Forall plain_name (PurePath.parts p).

(** [sub] occurs in [s] as a literal run of characters. *)
Definition Substring (sub s : string) : Prop :=
  exists pre post : string, s = (pre ++ sub ++ post)%string.

(** [FirstMatch P l hit examined]: scanning [l] from the left for an
    element with [P] stops at the first one and returns it; [examined] is
    the part of [l] the scan has looked at. *)
Inductive FirstMatch {A : Type} (P : A -> Prop)
  : list A -> option A -> list A -> Prop :=
| FM_none : forall l,
    Forall (fun a => ~ P a) l -> FirstMatch P l None l
| FM_some : forall pre x post,
    Forall (fun a => ~ P a) pre -> P x ->
    FirstMatch P (pre ++ x :: post) (Some x) (pre ++ [x]).
Arguments FM_none {A} P l _.
Arguments FM_some {A} P pre x post _ _.

(** The profile regions in configured order, each with the name it is
    searched for. *)
Definition candidates (configs : list CompanyConfig) : list (string * Query) :=
  flat_map
    (fun cc => map (fun coord => (get (cfg_company cc) "", coord_query coord))
                   (get (cfg_coordinates cc) []))
    configs.

(** The regions of one profile, each with the profile's name. *)
Definition named (company_name : string) (coordinates : list Coord)
  : list (string * Query) :=
  map (fun coord => (company_name, coord_query coord)) coordinates.

(** The profile is configured under exactly this name. *)
Definition has_name (cname : string) (cc : CompanyConfig) : bool :=
  match cfg_company cc with
  | Some c => String.eqb c cname
  | None => false
  end.

(** The world with one entry name taken out of every directory listing. *)
Definition without_entry (w : World) (nm : string) : World :=
  {| hashlib := hashlib w;
     open_rb := open_rb w;
     pdfplumber_open := pdfplumber_open w;
     scandir := fun d => filter (fun n => negb (String.eqb n nm)) (scandir w d);
     meta_writable := meta_writable w |}.

(** The accessor returns text at the region and the name occurs in it. *)
Definition region_matches
    (w : World) (self : PDFMetadataExtractor) (pdf_path : string)
    (cq : string * Query) : Prop :=
  exists text, text_at w self pdf_path (snd cq) = Some text
               /\ Substring (fst cq) text.

(** The phrases of a type map in configured order, each with its type. *)
Definition type_candidates (insurance_types : Dict.t (list string))
  : list (string * string) :=
  flat_map (fun kv => map (fun phrase => (fst kv, phrase)) (snd kv))
           insurance_types.

(** The whole text of the first page; empty if the document cannot be
    opened, has no page, or the page yields no text. *)
Definition first_page_text (w : World) (pdf_path : string) (x_tol : Z)
  : string :=
  match pdfplumber_open w pdf_path with
  | Return (page :: _) =>
      match extract_text page x_tol with
      | Return (Some text) => text
      | _ => ""
      end
  | _ => ""
  end.

(** The type classifier as section 4.2 words it: none for no company,
    else the profile of that exact name, else the first type with a
    phrase in the first page's text. *)
Definition detect_insurance_type_spec
    (w : World) (self : PDFMetadataExtractor) (pdf_path : string)
    (company_name : option string) : option string :=
  match company_name with
  | None => None
  | Some cname =>
      match find (fun cc => match cfg_company cc with
                            | Some c => String.eqb c cname
                            | None => false
                            end) (companies_config self) with
      | None => None
      | Some profile =>
          option_map fst
            (find (fun tp => Str.contains (snd tp)
                               (first_page_text w pdf_path (x_tolerance self)))
                  (type_candidates (get (cfg_insurance_types profile) [])))
      end
  end.

(** The entries that a pass over [files] produces, in order. *)
Definition classified
    (w : World) (ex : PDFMetadataExtractor) (files : list string)
  : list MetaEntry :=
  flat_map (fun f => match extract_metadata w ex f with
                     | Return (Some e) => [e]
                     | _ => []
                     end) files.

(** Upserting a list of entries, first to last. *)
Definition upsert_all (es : list MetaEntry) (d : Dict.t MetaEntry)
  : Dict.t MetaEntry :=
  fold_left (fun d e => Dict.set (name e) e d) es d.

(** A profile without the regions whose page number is 0 or negative. *)
Definition positive_page (coord : Coord) : bool := 0 <? get (c_page coord) 1.

Definition without_nonpositive_pages (cc : CompanyConfig) : CompanyConfig :=
  {| cfg_company := cfg_company cc;
     cfg_coordinates := option_map (filter positive_page) (cfg_coordinates cc);
     cfg_insurance_types := cfg_insurance_types cc |}.

(* ------------------------------------------------------------------ *)
(** ** A small world to run the code on *)

Module Sample.

Definition toy_hashlib : Hashlib :=
  {| sha_state := string;
     sha256 := "";
     update := fun st block => (st ++ block)%string;
     hexdigest := fun st => ("sha:" ++ st)%string |}.

Definition front_page : Page :=
  {| crop_extract_text := fun _ _ => Return (Some " Acme Insurance ");
     extract_text := fun _ => Return (Some "Acme Insurance - auto policy") |}.

(** One one-page PDF, [/watch/a.pdf]; nothing else can be opened. *)
Definition world (listing : list string) (writable : bool) : World :=
  {| hashlib := toy_hashlib;
     open_rb := fun p => if String.eqb p "/watch/a.pdf"
                         then Return "%PDF" else Raise;
     pdfplumber_open := fun p => if String.eqb p "/watch/a.pdf"
                                 then Return [front_page] else Raise;
     scandir := fun d => if String.eqb d "/watch" then listing else [];
     meta_writable := writable |}.

Definition region (page : Z) : Coord :=
  {| c_x0 := Some 0%Q; c_y0 := Some 0%Q;
     c_x1 := Some 200%Q; c_y1 := Some 50%Q; c_page := Some page |}.

Definition profile (nm : string) (pages : list Z) : CompanyConfig :=
  {| cfg_company := Some nm;
     cfg_coordinates := Some (map region pages);
     cfg_insurance_types := Some [("home", ["home policy"]);
                                  ("auto", ["car policy"; "auto policy"])] |}.

Definition acme : PDFMetadataExtractor :=
  {| companies_config := [profile "Zenith" [1]; profile "Acme" [2; 1]];
     x_tolerance := 1 |}.

(** A configuration whose only profile has the empty name. *)
Definition nameless : PDFMetadataExtractor :=
  {| companies_config := [profile "" [1]]; x_tolerance := 1 |}.

(** A configuration that matches no document of the sample world. *)
Definition zenith : PDFMetadataExtractor :=
  {| companies_config := [profile "Zenith" [1]]; x_tolerance := 1 |}.

Definition handler : PDFEventHandler :=
  {| extractor := acme; watch_directory := PurePath.parse "/watch" |}.

Definition file_event (p : string) : Event :=
  {| is_directory := false; src_path := p |}.

Definition a_entry : MetaEntry :=
  {| name := "a.pdf"; file_hash := "sha:%PDF";
     company := "Acme"; insurance_type := "auto" |}.

End Sample.

(** The startup scenario of three top-level PDFs: two Acme documents
    (auto and home) and one from an unknown source. *)
Module Scenario.

Definition page_with (header body : string) : Page :=
  {| crop_extract_text := fun _ _ => Return (Some header);
     extract_text := fun _ => Return (Some body) |}.

Definition documents : list (string * Page) :=
  [("/watch/a.pdf", page_with "Acme Insurance" "Acme Insurance - auto policy");
   ("/watch/b.pdf", page_with "Acme Insurance" "Acme Insurance - home policy");
   ("/watch/c.pdf", page_with "Globex" "Globex - travel policy")].

Definition lookup (p : string) : option Page :=
  option_map snd (find (fun kv => String.eqb (fst kv) p) documents).

Definition world : World :=
  {| hashlib := Sample.toy_hashlib;
     open_rb := fun p => match lookup p with
                         | Some _ => Return p
                         | None => Raise
                         end;
     pdfplumber_open := fun p => match lookup p with
                                 | Some page => Return [page]
                                 | None => Raise
                                 end;
     scandir := fun d => if String.eqb d "/watch"
                         then ["a.pdf"; "c.pdf"; "notes.txt"; "b.pdf"]
                         else [];
     meta_writable := true |}.

End Scenario.

(** A two-page document for the data extractor: the box lies on the first
    page only. *)
Module SampleData.

Definition first : DataExtractor.Page :=
  {| DataExtractor.crop_extract_text :=
       fun _ _ => DataExtractor.Extracted (Some " Policy 42 ") |}.

Definition second : DataExtractor.Page :=
  {| DataExtractor.crop_extract_text := fun _ _ => DataExtractor.ValueError |}.

Definition documents (path : string) : exn (list DataExtractor.Page) :=
  if String.eqb path "doc.pdf" then Return [first; second] else Raise.

Definition box : BBox := (0%Q, 0%Q, 100%Q, 20%Q).

Definition number_field (p : option Z) : DataExtractor.Selection :=
  {| DataExtractor.label := "number";
     DataExtractor.page := p;
     DataExtractor.coordinates := box |}.

End SampleData.

(* ------------------------------------------------------------------ *)
(** ** Facts about strings *)

Lemma length_append (a b : string) :
  String.length (a ++ b) = (String.length a + String.length b)%nat.
Proof. induction a as [|x a IH]; simpl; [reflexivity | now rewrite IH]. Qed.

Lemma startswith_spec (p s : string) :
  Str.startswith p s = true <-> exists rest, s = (p ++ rest)%string.
Proof.
  revert s; induction p as [|a p IH]; intros s; simpl.
  - split; [intros _; now exists s | reflexivity].
  - destruct s as [|b s].
    + split; [discriminate | intros [rest H]; discriminate].
    + rewrite andb_true_iff, Ascii.eqb_eq, IH. split.
      * intros [-> [rest ->]]. now exists rest.
      * intros [rest H]. injection H as -> ->. split; [reflexivity | now exists rest].
Qed.

Lemma contains_spec (sub s : string) :
  Str.contains sub s = true <-> Substring sub s.
Proof.
  induction s as [|a s IH]; simpl; rewrite orb_true_iff.
  - split.
    + intros [H | H]; [| discriminate].
      apply startswith_spec in H. destruct H as [rest H].
      exists "", rest. exact H.
    + intros [pre [post H]]. left.
      destruct pre; [| discriminate]. simpl in H.
      apply startswith_spec. now exists post.
  - rewrite IH, startswith_spec. split.
    + intros [[rest H] | [pre [post H]]].
      * exists "", rest. exact H.
      * exists (String a pre), post. simpl. now rewrite H.
    + intros [pre [post H]]. destruct pre as [|b pre]; simpl in H.
      * left. now exists post.
      * right. injection H as _ H. now exists pre, post.
Qed.

Lemma is_empty_false (s : string) : Str.is_empty s = false <-> s <> "".
Proof. destruct s; simpl; split; congruence. Qed.

(* ------------------------------------------------------------------ *)
(** ** Facts about first-match scans *)

Section FirstMatchFacts.

Context {A : Type} (P : A -> Prop).

Lemma FirstMatch_here (x : A) (l : list A) :
  P x -> FirstMatch P (x :: l) (Some x) [x].
Proof. intros H. apply (FM_some P [] x l); [constructor | exact H]. Qed.

Lemma FirstMatch_later (a : A) (l : list A) hit examined :
  ~ P a -> FirstMatch P l hit examined ->
  FirstMatch P (a :: l) hit (a :: examined).
Proof.
  intros Ha H. destruct H as [l Hl | pre x post Hpre Hx].
  - apply FM_none. now constructor.
  - apply (FM_some P (a :: pre) x post); [now constructor | exact Hx].
Qed.

Lemma FirstMatch_app_miss (l1 l2 : list A) hit examined :
  Forall (fun a => ~ P a) l1 -> FirstMatch P l2 hit examined ->
  FirstMatch P (l1 ++ l2) hit (l1 ++ examined).
Proof.
  induction 1 as [|a l1 Ha _ IH]; intros H; simpl; [exact H |].
  apply FirstMatch_later; auto.
Qed.

Lemma FirstMatch_app_hit (l1 l2 : list A) x examined :
  FirstMatch P l1 (Some x) examined ->
  FirstMatch P (l1 ++ l2) (Some x) examined.
Proof.
  intros H. inversion H as [| pre y post Hpre Hy]; subst.
  rewrite <- app_assoc. simpl. now apply FM_some.
Qed.

Lemma FirstMatch_none_inv (l : list A) examined :
  FirstMatch P l None examined ->
  examined = l /\ Forall (fun a => ~ P a) l.
Proof. intros H. inversion H; subst. now split. Qed.

(** A decidable scan is [List.find]. *)
Lemma FirstMatch_find (f : A -> bool) (l : list A) :
  (forall a, f a = true <-> P a) ->
  exists examined, FirstMatch P l (find f l) examined.
Proof.
  intros Hf. induction l as [|a l [examined IH]]; simpl.
  - exists []. apply FM_none. constructor.
  - destruct (f a) eqn:E.
    + exists [a]. apply FirstMatch_here. now apply Hf.
    + exists (a :: examined). apply FirstMatch_later; [| exact IH].
      intros Ha. apply Hf in Ha. congruence.
Qed.

End FirstMatchFacts.

(* ------------------------------------------------------------------ *)
(** ** The company classifier *)

Section CompanyFacts.

Variable w : World.
Variable self : PDFMetadataExtractor.
Variable pdf_path : string.

Lemma scan_coordinates_cons company_name coord rest :
  scan_coordinates w self pdf_path company_name (coord :: rest)
  = let q := coord_query coord in
    let continue :=
      let '(r, qs) := scan_coordinates w self pdf_path company_name rest in
      (r, q :: qs) in
    match text_at w self pdf_path q with
    | None => continue
    | Some text =>
        if Str.contains company_name text
        then (Some company_name, [q]) else continue
    end.
Proof. reflexivity. Qed.

Lemma scan_coordinates_first_match company_name coordinates :
  exists hit examined,
    FirstMatch (region_matches w self pdf_path)
               (named company_name coordinates) hit examined
    /\ scan_coordinates w self pdf_path company_name coordinates
       = (option_map fst hit, map snd examined).
Proof.
  induction coordinates as [|coord rest (hit & examined & Hfm & Hrun)].
  - exists None, []. split; [apply FM_none; constructor | reflexivity].
  - rewrite scan_coordinates_cons. cbv zeta. rewrite Hrun.
    assert (Hmiss : ~ region_matches w self pdf_path
                      (company_name, coord_query coord) ->
                    exists hit' examined',
                      FirstMatch (region_matches w self pdf_path)
                        (named company_name (coord :: rest)) hit' examined'
                      /\ (option_map fst hit',
                          coord_query coord :: map snd examined)
                         = (option_map fst hit', map snd examined')
                      /\ hit' = hit).
    { intros Hno. exists hit, ((company_name, coord_query coord) :: examined).
      split; [| split; reflexivity].
      apply FirstMatch_later; assumption. }
    destruct (text_at w self pdf_path (coord_query coord)) as [text|] eqn:Et.
    + destruct (Str.contains company_name text) eqn:Ec.
      * exists (Some (company_name, coord_query coord)),
               [(company_name, coord_query coord)].
        split; [| reflexivity].
        apply FirstMatch_here. exists text. split; [exact Et |].
        now apply contains_spec.
      * destruct Hmiss as (hit' & examined' & H1 & H2 & ->).
        { intros (text' & Ht' & Hsub). cbn [fst snd] in Ht', Hsub.
          rewrite Et in Ht'. injection Ht' as <-.
          apply contains_spec in Hsub. congruence. }
        exists hit, examined'. split; [exact H1 | exact H2].
    + destruct Hmiss as (hit' & examined' & H1 & H2 & ->).
      { intros (text' & Ht' & _). cbn [fst snd] in Ht'. congruence. }
      exists hit, examined'. split; [exact H1 | exact H2].
Qed.

Lemma scan_companies_first_match configs :
  exists hit examined,
    FirstMatch (region_matches w self pdf_path) (candidates configs)
               hit examined
    /\ scan_companies w self pdf_path configs
       = (option_map fst hit, map snd examined).
Proof.
  induction configs as [|cc rest (hit & examined & Hfm & Hrun)].
  - exists None, []. split; [apply FM_none; constructor | reflexivity].
  - simpl scan_companies. simpl candidates.
    destruct (scan_coordinates_first_match
                (get (cfg_company cc) "") (get (cfg_coordinates cc) []))
      as (hit1 & examined1 & Hfm1 & Hrun1).
    fold (named (get (cfg_company cc) "") (get (cfg_coordinates cc) [])).
    rewrite Hrun1. destruct hit1 as [x|]; simpl.
    + exists (Some x), examined1. split; [| reflexivity].
      now apply FirstMatch_app_hit.
    + apply FirstMatch_none_inv in Hfm1. destruct Hfm1 as [-> Hall].
      rewrite Hrun. exists hit, (named (get (cfg_company cc) "")
                                      (get (cfg_coordinates cc) []) ++ examined).
      split; [now apply FirstMatch_app_miss |].
      now rewrite map_app.
Qed.

End CompanyFacts.

(* ------------------------------------------------------------------ *)
(** ** The region accessor *)

Section AccessorFacts.

Variable w : World.

Lemma extract_text_from_region_negative pdf_path x1 y1 x2 y2 page_num x_tol :
  page_num < 0 ->
  extract_text_from_region w pdf_path x1 y1 x2 y2 page_num x_tol = None.
Proof.
  intros Hneg. unfold extract_text_from_region.
  destruct (pdfplumber_open w pdf_path) as [|pages]; simpl; [reflexivity |].
  replace (page_num <? 0) with true by (symmetry; now apply Z.ltb_lt).
  now rewrite orb_true_r.
Qed.

Lemma extract_text_from_region_beyond
      pdf_path pages x1 y1 x2 y2 page_num x_tol :
  pdfplumber_open w pdf_path = Return pages ->
  Z.of_nat (length pages) <= page_num ->
  extract_text_from_region w pdf_path x1 y1 x2 y2 page_num x_tol = None.
Proof.
  intros Hopen Hbig. unfold extract_text_from_region.
  rewrite Hopen; simpl.
  replace (page_num >=? Z.of_nat (length pages)) with true; [reflexivity |].
  symmetry. apply Z.geb_le. exact Hbig.
Qed.

Lemma extract_full_page_text_first pdf_path x_tol :
  extract_full_page_text w pdf_path 0 x_tol = first_page_text w pdf_path x_tol.
Proof.
  unfold extract_full_page_text, first_page_text.
  destruct (pdfplumber_open w pdf_path) as [|[|page pages]]; try reflexivity.
  cbn -[Z.of_nat Z.geb].
  replace (0 >=? Z.of_nat (length (page :: pages))) with false.
  - cbn. destruct (extract_text page x_tol) as [|[text|]]; reflexivity.
  - symmetry. rewrite Z.geb_leb. apply Z.leb_gt. simpl length. lia.
Qed.

End AccessorFacts.

Section SkipFacts.

Variable w : World.
Variable pdf_path : string.

Lemma text_at_nonpositive_page self coord :
  get (c_page coord) 1 <= 0 ->
  text_at w self pdf_path (coord_query coord) = None.
Proof.
  intros Hp. unfold text_at, coord_query.
  apply extract_text_from_region_negative. lia.
Qed.

Lemma fst_continue {R Q' : Type} (q : Q') (run : R * list Q') :
  fst (let '(r, qs) := run in (r, q :: qs)) = fst run.
Proof. now destruct run. Qed.

Lemma scan_coordinates_skip self self' company_name coordinates :
  x_tolerance self' = x_tolerance self ->
  fst (scan_coordinates w self' pdf_path company_name
                        (filter positive_page coordinates))
  = fst (scan_coordinates w self pdf_path company_name coordinates).
Proof.
  intros Htol. induction coordinates as [|coord rest IH]; [reflexivity |].
  rewrite (scan_coordinates_cons w self). cbv zeta.
  cbn [filter]. unfold positive_page at 1.
  destruct (0 <? get (c_page coord) 1) eqn:Ep.
  - rewrite (scan_coordinates_cons w self'). cbv zeta.
    replace (text_at w self' pdf_path (coord_query coord))
      with (text_at w self pdf_path (coord_query coord))
      by (unfold text_at, coord_query; now rewrite Htol).
    destruct (text_at w self pdf_path (coord_query coord)) as [text|].
    + destruct (Str.contains company_name text); [reflexivity |].
      now rewrite !fst_continue.
    + now rewrite !fst_continue.
  - apply Z.ltb_ge in Ep.
    rewrite (text_at_nonpositive_page self coord Ep).
    now rewrite fst_continue.
Qed.

Lemma scan_companies_skip self self' configs :
  x_tolerance self' = x_tolerance self ->
  fst (scan_companies w self' pdf_path (map without_nonpositive_pages configs))
  = fst (scan_companies w self pdf_path configs).
Proof.
  intros Htol. induction configs as [|cc rest IH]; [reflexivity |].
  cbn [map scan_companies without_nonpositive_pages cfg_company
       cfg_coordinates].
  assert (Hin := scan_coordinates_skip self self' (get (cfg_company cc) "")
                   (get (cfg_coordinates cc) []) Htol).
  replace (get (option_map (filter positive_page) (cfg_coordinates cc)) [])
    with (filter positive_page (get (cfg_coordinates cc) []))
    by (now destruct (cfg_coordinates cc)).
  destruct (scan_coordinates w self' pdf_path _ (filter _ _)) as [r' qs'].
  destruct (scan_coordinates w self pdf_path _ (get (cfg_coordinates cc) []))
    as [r qs].
  cbn [fst] in Hin. subst r'. destruct r as [found|]; [reflexivity |].
  destruct (scan_companies w self' pdf_path _) as [r1 qs1].
  destruct (scan_companies w self pdf_path rest) as [r2 qs2].
  exact IH.
Qed.

End SkipFacts.

(** C3. [detect_company] scans the profiles in configured order and each
    profile's regions in configured order, asking the accessor for
    [(file, page - 1, box)]. A region beyond the last page gets the
    page-absent answer and is passed over. The result is the name of the
    first region whose text contains it as a case-sensitive literal
    substring, the accessor is called on exactly the regions up to and
    including that one, and the result is none when no region matches. *)
Theorem detect_company_first_match
    (w : World) (self : PDFMetadataExtractor) (pdf_path : string) :
  (forall coord,
      coord_query coord
      = (get (c_page coord) 1 - 1,
         (get (c_x0 coord) 0%Q, get (c_y0 coord) 0%Q,
          get (c_x1 coord) 0%Q, get (c_y1 coord) 0%Q)))
  /\ (forall pages page bbox,
         pdfplumber_open w pdf_path = Return pages ->
         page < 0 \/ Z.of_nat (length pages) <= page ->
         text_at w self pdf_path (page, bbox) = None)
  /\ exists hit examined,
       FirstMatch (region_matches w self pdf_path)
                  (candidates (companies_config self)) hit examined
       /\ detect_company_run w self pdf_path
          = (option_map fst hit, map snd examined)
       /\ detect_company w self pdf_path = option_map fst hit.
Proof.
  split; [reflexivity | split].
  - intros pages page [[[x1 y1] x2] y2] Hopen [Hneg | Hbig]; unfold text_at.
    + now apply extract_text_from_region_negative.
    + now apply extract_text_from_region_beyond with (pages := pages).
  - destruct (scan_companies_first_match w self pdf_path
                (companies_config self)) as (hit & examined & Hfm & Hrun).
    exists hit, examined. unfold detect_company, detect_company_run.
    rewrite Hrun. auto.
Qed.

Lemma detect_company_first_match_witness :
  text_at (Sample.world [] true) Sample.acme "/watch/a.pdf"
          (1, (0%Q, 0%Q, 200%Q, 50%Q)) = None.
Proof.
  apply (proj1 (proj2 (detect_company_first_match
                         (Sample.world [] true) Sample.acme "/watch/a.pdf"))
               [Sample.front_page] 1 (0%Q, 0%Q, 200%Q, 50%Q)).
  - reflexivity.
  - right. simpl. lia.
Defined.

(** C9. A page index below 0 gets the page-absent answer from
    [extract_text_from_region] whatever the document holds, so it never
    selects a page counted from the end; a region configured with page 0
    or a negative page is therefore passed over, and [detect_company]
    answers as if those regions were not configured. *)
Theorem nonpositive_page_is_absent
    (w : World) (self : PDFMetadataExtractor) (pdf_path : string) :
  (forall x1 y1 x2 y2 page_num x_tol,
      page_num < 0 ->
      extract_text_from_region w pdf_path x1 y1 x2 y2 page_num x_tol = None)
  /\ (forall coord,
         get (c_page coord) 1 <= 0 ->
         text_at w self pdf_path (coord_query coord) = None
         /\ forall company_name rest,
              fst (scan_coordinates w self pdf_path company_name (coord :: rest))
              = fst (scan_coordinates w self pdf_path company_name rest))
  /\ detect_company w
       {| companies_config :=
            map without_nonpositive_pages (companies_config self);
          x_tolerance := x_tolerance self |} pdf_path
     = detect_company w self pdf_path.
Proof.
  split; [| split].
  - intros. now apply extract_text_from_region_negative.
  - intros coord Hp. split; [now apply text_at_nonpositive_page |].
    intros company_name rest. rewrite scan_coordinates_cons. cbv zeta.
    rewrite (text_at_nonpositive_page w pdf_path self coord Hp).
    apply fst_continue.
  - unfold detect_company, detect_company_run. cbn [companies_config].
    now apply scan_companies_skip.
Qed.

Lemma nonpositive_page_is_absent_witness :
  extract_text_from_region (Sample.world [] true) "/watch/a.pdf"
                           0%Q 0%Q 200%Q 50%Q (-1) 1 = None
  /\ text_at (Sample.world [] true) Sample.acme "/watch/a.pdf"
             (coord_query (Sample.region 0)) = None.
Proof.
  pose proof (nonpositive_page_is_absent
                (Sample.world [] true) Sample.acme "/watch/a.pdf") as [H1 [H2 _]].
  split.
  - apply H1. lia.
  - apply (H2 (Sample.region 0)). simpl. lia.
Defined.

(* ------------------------------------------------------------------ *)
(** ** The insurance-type classifier *)

Section TypeFacts.

Variable w : World.
Variable self : PDFMetadataExtractor.
Variable pdf_path : string.

Lemma has_name_spec cname cc :
  has_name cname cc = true <-> cfg_company cc = Some cname.
Proof.
  unfold has_name. destruct (cfg_company cc) as [c|].
  - rewrite String.eqb_eq. split; congruence.
  - split; discriminate.
Qed.

Lemma find_config_find cname configs :
  find_config cname configs = find (has_name cname) configs.
Proof.
  induction configs as [|cc rest IH]; [reflexivity |].
  simpl. unfold has_name at 1.
  destruct (cfg_company cc) as [c|]; [destruct (String.eqb c cname) |];
    auto.
Qed.

Lemma find_phrases (full_text type_id : string) phrases later :
  option_map fst
    (find (fun tp : string * string => Str.contains (snd tp) full_text)
          (map (fun phrase => (type_id, phrase)) phrases ++ later))
  = if match_representations full_text phrases then Some type_id
    else option_map fst
           (find (fun tp : string * string => Str.contains (snd tp) full_text)
                 later).
Proof.
  induction phrases as [|phrase rest IH]; [reflexivity |].
  simpl. destruct (Str.contains phrase full_text); [reflexivity | exact IH].
Qed.

Lemma match_types_find full_text insurance_types :
  match_types full_text insurance_types
  = option_map fst
      (find (fun tp : string * string => Str.contains (snd tp) full_text)
            (type_candidates insurance_types)).
Proof.
  induction insurance_types as [|[type_id phrases] rest IH]; [reflexivity |].
  simpl. rewrite find_phrases, <- IH. reflexivity.
Qed.

Lemma detect_insurance_type_nonempty cname :
  cname <> "" ->
  detect_insurance_type w self pdf_path (Some cname)
  = match find (has_name cname) (companies_config self) with
    | None => None
    | Some profile =>
        option_map fst
          (find (fun tp : string * string =>
                   Str.contains (snd tp)
                     (first_page_text w pdf_path (x_tolerance self)))
                (type_candidates (get (cfg_insurance_types profile) [])))
    end.
Proof.
  intros Hne. unfold detect_insurance_type, falsy.
  apply is_empty_false in Hne. rewrite Hne.
  rewrite find_config_find.
  destruct (find (has_name cname) (companies_config self)); [| reflexivity].
  now rewrite extract_full_page_text_first, match_types_find.
Qed.

End TypeFacts.

(** C4, as the code has it. [detect_insurance_type] returns none at once
    when the given company is none or the empty string. Otherwise it takes
    the first profile of exactly that name (none if there is none), reads
    the whole text of the first page only, goes through the profile's type
    map in configured key order and through each phrase list in order, and
    returns the first type with a phrase that is a literal substring of
    that text, or none if no phrase is. *)
Theorem detect_insurance_type_first_match
    (w : World) (self : PDFMetadataExtractor) (pdf_path : string)
    (company_name : option string) :
  (company_name = None \/ company_name = Some "" ->
   detect_insurance_type w self pdf_path company_name = None)
  /\ (forall cname,
         company_name = Some cname -> cname <> "" ->
         exists profile seen,
           FirstMatch (fun cc => cfg_company cc = Some cname)
                      (companies_config self) profile seen
           /\ match profile with
              | None =>
                  detect_insurance_type w self pdf_path company_name = None
              | Some p =>
                  exists hit examined,
                    FirstMatch
                      (fun tp => Substring (snd tp)
                                   (first_page_text w pdf_path
                                                    (x_tolerance self)))
                      (type_candidates (get (cfg_insurance_types p) []))
                      hit examined
                    /\ detect_insurance_type w self pdf_path company_name
                       = option_map fst hit
              end)
  /\ (company_name <> Some "" ->
      detect_insurance_type w self pdf_path company_name
      = detect_insurance_type_spec w self pdf_path company_name).
Proof.
  split; [| split].
  - intros [-> | ->]; reflexivity.
  - intros cname -> Hne.
    rewrite (detect_insurance_type_nonempty w self pdf_path Hne).
    destruct (FirstMatch_find (fun cc => cfg_company cc = Some cname)
                (has_name cname) (companies_config self)
                (has_name_spec cname)) as [seen Hseen].
    exists (find (has_name cname) (companies_config self)), seen.
    split; [exact Hseen |].
    destruct (find (has_name cname) (companies_config self)) as [p|];
      [| reflexivity].
    match goal with
    | |- context [find ?f ?l] =>
        destruct (FirstMatch_find
                    (fun tp : string * string =>
                       Substring (snd tp)
                         (first_page_text w pdf_path (x_tolerance self)))
                    f l) as [examined Hex]
    end.
    { intros tp. apply contains_spec. }
    eexists _, examined. split; [exact Hex | reflexivity].
  - intros Hne. destruct company_name as [cname|]; [| reflexivity].
    assert (Hc : cname <> "") by congruence.
    rewrite (detect_insurance_type_nonempty w self pdf_path Hc).
    reflexivity.
Qed.

Lemma detect_insurance_type_first_match_witness :
  detect_insurance_type (Sample.world [] true) Sample.acme "/watch/a.pdf"
                        (Some "Acme")
  = detect_insurance_type_spec (Sample.world [] true) Sample.acme
                               "/watch/a.pdf" (Some "Acme").
Proof.
  apply (proj2 (proj2 (detect_insurance_type_first_match
                         (Sample.world [] true) Sample.acme "/watch/a.pdf"
                         (Some "Acme")))).
  discriminate.
Defined.

(** C4 as stated fails: a profile whose name is the empty string is found
    by [detect_company], and looking it up by exact name would classify
    the document as "auto", but the code answers none for the empty
    name. *)
Lemma detect_insurance_type_empty_name_counterexample :
  detect_company (Sample.world [] true) Sample.nameless "/watch/a.pdf"
  = Some ""
  /\ detect_insurance_type_spec (Sample.world [] true) Sample.nameless
                                "/watch/a.pdf" (Some "") = Some "auto"
  /\ detect_insurance_type (Sample.world [] true) Sample.nameless
                           "/watch/a.pdf" (Some "")
     <> detect_insurance_type_spec (Sample.world [] true) Sample.nameless
                                   "/watch/a.pdf" (Some "").
Proof.
  split; [reflexivity | split; [reflexivity |]].
  vm_compute. discriminate.
Qed.

(* ------------------------------------------------------------------ *)
(** ** The entry builder *)

Section BuilderFacts.

Variable w : World.
Variable self : PDFMetadataExtractor.
Variable pdf_path : string.

Lemma falsy_false (s : option string) :
  falsy s = false <-> exists v, s = Some v /\ v <> "".
Proof.
  destruct s as [v|]; simpl.
  - rewrite is_empty_false. split.
    + intros H. now exists v.
    + intros (v' & Hv & Hne). congruence.
  - split; [discriminate | intros (v & Hv & _); discriminate].
Qed.

(** What [extract_metadata] returns once the file has been hashed. *)
Lemma extract_metadata_hashed digest :
  compute_file_hash w pdf_path = Return digest ->
  extract_metadata w self pdf_path
  = let c := detect_company w self pdf_path in
    let t := detect_insurance_type w self pdf_path c in
    if falsy c || falsy t then Return None
    else match c, t with
         | Some c', Some t' =>
             Return (Some {| name := PurePath.name (PurePath.parse pdf_path);
                             file_hash := digest;
                             company := c';
                             insurance_type := t' |})
         | _, _ => Return None
         end.
Proof. intros Hh. unfold extract_metadata. now rewrite Hh. Qed.

Lemma extract_metadata_unhashed :
  compute_file_hash w pdf_path = Raise ->
  extract_metadata w self pdf_path = Raise.
Proof. intros Hh. unfold extract_metadata. now rewrite Hh. Qed.

Lemma extract_metadata_some e :
  extract_metadata w self pdf_path = Return (Some e) ->
  name e = PurePath.name (PurePath.parse pdf_path)
  /\ compute_file_hash w pdf_path = Return (file_hash e)
  /\ detect_company w self pdf_path = Some (company e)
  /\ company e <> ""
  /\ detect_insurance_type w self pdf_path (Some (company e))
     = Some (insurance_type e)
  /\ insurance_type e <> "".
Proof.
  destruct (compute_file_hash w pdf_path) as [|digest] eqn:Hh.
  - rewrite (extract_metadata_unhashed Hh). discriminate.
  - rewrite (extract_metadata_hashed Hh). cbv zeta.
    destruct (falsy (detect_company w self pdf_path)) eqn:Fc;
      [discriminate |].
    apply falsy_false in Fc. destruct Fc as (c & Hc & Hcne).
    rewrite Hc in *.
    destruct (falsy (detect_insurance_type w self pdf_path (Some c))) eqn:Ft;
      [discriminate |].
    apply falsy_false in Ft. destruct Ft as (t & Ht & Htne).
    rewrite Ht. cbn. intros H. injection H as <-. cbn. auto 10.
Qed.

Lemma detect_company_no_match :
  Forall (fun cq => ~ region_matches w self pdf_path cq)
         (candidates (companies_config self)) ->
  detect_company w self pdf_path = None.
Proof.
  intros Hall.
  destruct (scan_companies_first_match w self pdf_path
              (companies_config self)) as (hit & examined & Hfm & Hrun).
  unfold detect_company, detect_company_run. rewrite Hrun.
  destruct hit as [x|]; [| reflexivity].
  inversion Hfm as [| pre y post Hpre Hy Heq]; subst.
  rewrite <- Heq in Hall. apply Forall_app in Hall.
  destruct Hall as [_ Hall]. inversion Hall; subst. contradiction.
Qed.

End BuilderFacts.

(** C5, as the code has it. [extract_metadata] returns an entry only if
    the detected company and the detected insurance type are both
    non-null and non-empty. For a file that can be read, so that its
    digest can be computed, it returns none whenever one of them is not;
    in particular, when no configured company name is a substring of any
    configured region's extracted text, no entry is produced and the
    readable document gets none. It raises, before any detection,
    exactly when the file cannot be opened for hashing. *)
Theorem extract_metadata_gate
    (w : World) (self : PDFMetadataExtractor) (pdf_path : string) :
  (forall e,
      extract_metadata w self pdf_path = Return (Some e) ->
      detect_company w self pdf_path = Some (company e)
      /\ company e <> ""
      /\ detect_insurance_type w self pdf_path (detect_company w self pdf_path)
         = Some (insurance_type e)
      /\ insurance_type e <> "")
  /\ (forall digest,
         compute_file_hash w pdf_path = Return digest ->
         falsy (detect_company w self pdf_path)
         || falsy (detect_insurance_type w self pdf_path
                     (detect_company w self pdf_path)) = true ->
         extract_metadata w self pdf_path = Return None)
  /\ (Forall (fun cq => ~ region_matches w self pdf_path cq)
             (candidates (companies_config self)) ->
      (forall e, extract_metadata w self pdf_path <> Return (Some e))
      /\ (forall digest,
             compute_file_hash w pdf_path = Return digest ->
             extract_metadata w self pdf_path = Return None))
  /\ (extract_metadata w self pdf_path = Raise
      <-> compute_file_hash w pdf_path = Raise).
Proof.
  split; [| split; [| split]].
  - intros e He. apply extract_metadata_some in He.
    destruct He as (_ & _ & Hc & Hcne & Ht & Htne).
    rewrite Hc. auto.
  - intros digest Hh Hf. rewrite (extract_metadata_hashed w self pdf_path Hh).
    cbv zeta. now rewrite Hf.
  - intros Hall. pose proof (detect_company_no_match Hall) as Hnone. split.
    + intros e He. apply extract_metadata_some in He.
      destruct He as (_ & _ & Hc & _). congruence.
    + intros digest Hh. rewrite (extract_metadata_hashed w self pdf_path Hh).
      cbv zeta. now rewrite Hnone.
  - destruct (compute_file_hash w pdf_path) as [|digest] eqn:Hh.
    + split; [reflexivity |]. intros _. now apply extract_metadata_unhashed.
    + rewrite (extract_metadata_hashed w self pdf_path Hh). cbv zeta.
      split; [| discriminate].
      destruct (falsy _ || falsy _); [discriminate |].
      destruct (detect_company w self pdf_path) as [c|]; [| discriminate].
      destruct (detect_insurance_type w self pdf_path (Some c));
        discriminate.
Qed.

Lemma extract_metadata_gate_witness :
  extract_metadata (Sample.world [] true) Sample.zenith "/watch/a.pdf"
  = Return None.
Proof.
  apply (proj1 (proj2 (proj2 (extract_metadata_gate
                                (Sample.world [] true) Sample.zenith
                                "/watch/a.pdf"))))
    with (digest := "sha:%PDF").
  - repeat constructor. intros (text & Ht & Hsub).
    cbn [fst snd] in Ht, Hsub.
    assert (text = "Acme Insurance") as -> by (vm_compute in Ht; congruence).
    apply contains_spec in Hsub. vm_compute in Hsub. discriminate.
  - reflexivity.
Defined.

(** C5 as stated fails: for a file that cannot be opened no configured
    company name is in any region's text (no region has text), and yet
    [extract_metadata] does not return none: hashing the file raises
    before any detection. *)
Lemma extract_metadata_unreadable_counterexample :
  Forall (fun cq => ~ region_matches (Sample.world [] true) Sample.zenith
                      "/watch/missing.pdf" cq)
         (candidates (companies_config Sample.zenith))
  /\ extract_metadata (Sample.world [] true) Sample.zenith "/watch/missing.pdf"
     = Raise
  /\ extract_metadata (Sample.world [] true) Sample.zenith "/watch/missing.pdf"
     <> Return None.
Proof.
  split; [| split; [reflexivity | discriminate]].
  repeat constructor. intros (text & Ht & _). discriminate Ht.
Qed.

(* ------------------------------------------------------------------ *)
(** ** Dictionaries *)

Section DictFacts.

Variable V : Type.
Implicit Types (d : Dict.t V) (k : string) (v : V).

Lemma dict_set_twice k v d :
  Dict.set k v (Dict.set k v d) = Dict.set k v d.
Proof.
  induction d as [|[k' v'] d IH]; simpl.
  - now rewrite String.eqb_refl.
  - destruct (String.eqb k' k) eqn:E; simpl; rewrite E; [reflexivity |].
    now rewrite IH.
Qed.

Lemma dict_mem_keys k d : Dict.mem k d = true <-> In k (Dict.keys d).
Proof.
  induction d as [|[k' v'] d IH]; simpl.
  - split; [discriminate | contradiction].
  - rewrite orb_true_iff, String.eqb_eq, IH. reflexivity.
Qed.

Lemma dict_del_absent k d : Dict.mem k d = false -> Dict.del k d = d.
Proof.
  induction d as [|[k' v'] d IH]; simpl; [reflexivity |].
  intros H. apply orb_false_iff in H. destruct H as [E H].
  rewrite E. now rewrite IH.
Qed.

(** With unique keys, [del] leaves exactly the other records, in order. *)
Lemma dict_del_filter k d :
  NoDup (Dict.keys d) ->
  Dict.del k d = filter (fun kv => negb (String.eqb (fst kv) k)) d.
Proof.
  induction d as [|[k' v'] d IH]; simpl; [reflexivity |].
  intros Hnd. inversion Hnd as [|? ? Hnotin Hnd']; subst.
  destruct (String.eqb k' k) eqn:E; simpl.
  - apply String.eqb_eq in E. subst k'.
    rewrite <- IH by assumption. symmetry. apply dict_del_absent.
    destruct (Dict.mem k d) eqn:M; [| reflexivity].
    apply dict_mem_keys in M. contradiction.
  - now rewrite IH.
Qed.

Lemma dict_mem_del k d :
  NoDup (Dict.keys d) -> Dict.mem k (Dict.del k d) = false.
Proof.
  intros Hnd. rewrite dict_del_filter by assumption.
  induction d as [|[k' v'] d IH]; simpl; [reflexivity |].
  inversion Hnd; subst.
  destruct (String.eqb k' k) eqn:E; simpl; [auto |].
  rewrite E. simpl. auto.
Qed.

(** A new key goes last. *)
Lemma dict_set_new k v d :
  Dict.mem k d = false -> Dict.set k v d = d ++ [(k, v)].
Proof.
  induction d as [|[k' v'] d IH]; simpl; [reflexivity |].
  intros H. apply orb_false_iff in H. destruct H as [E H].
  rewrite E. now rewrite IH.
Qed.

End DictFacts.

(* ------------------------------------------------------------------ *)
(** ** The metadata store *)

(** C7. Upsert is idempotent: a second [add_or_update] with the same entry
    leaves the dictionary, and with it the text a flush writes, as the
    first call left them; the index file after two flushing calls is
    byte-identical to the file after one (and a second call without flush
    leaves the file alone). *)
Theorem add_or_update_idempotent
    (w : World) (st : Store) (e : MetaEntry) (b1 b2 : bool) :
  entries (add_or_update w e b2 (add_or_update w e b1 st))
  = entries (add_or_update w e b1 st)
  /\ serialize (entries (add_or_update w e b2 (add_or_update w e b1 st)))
     = serialize (entries (add_or_update w e b1 st))
  /\ index_file (add_or_update w e b2 (add_or_update w e true st))
     = index_file (add_or_update w e true st)
  /\ index_file (add_or_update w e false (add_or_update w e b1 st))
     = index_file (add_or_update w e b1 st).
Proof.
  assert (He : entries (add_or_update w e b2 (add_or_update w e b1 st))
               = entries (add_or_update w e b1 st)).
  { destruct b1, b2; cbn; apply dict_set_twice. }
  split; [exact He | split; [now rewrite He | split]].
  - destruct b2; cbn; [| reflexivity].
    destruct (meta_writable w); [| reflexivity].
    now rewrite dict_set_twice.
  - reflexivity.
Qed.

(** C6, as the code has it. [remove name] deletes the key and flushes the
    whole dictionary to the index file at once when the name is present;
    when the name is not present it does nothing: no flush, and the index
    file keeps its content. *)
Theorem remove_flushes_when_present
    (w : World) (nm : string) (st : Store) :
  NoDup (Dict.keys (entries st)) ->
  (Dict.mem nm (entries st) = true ->
   entries (remove w nm st)
   = filter (fun kv => negb (String.eqb (fst kv) nm)) (entries st)
   /\ Dict.mem nm (entries (remove w nm st)) = false
   /\ save_calls (remove w nm st) = S (save_calls st)
   /\ index_file (remove w nm st)
      = if meta_writable w
        then Some (serialize (entries (remove w nm st)))
        else index_file st)
  /\ (Dict.mem nm (entries st) = false -> remove w nm st = st).
Proof.
  intros Hnd. unfold remove. split; intros Hm; rewrite Hm; [| reflexivity].
  cbn. rewrite <- dict_del_filter by assumption.
  rewrite dict_mem_del by assumption. auto.
Qed.

Lemma remove_flushes_when_present_witness :
  let st := {| entries := [("a.pdf", Sample.a_entry)];
               index_file := None; save_calls := 0 |} in
  save_calls (remove (Sample.world [] true) "a.pdf" st) = 1%nat
  /\ index_file (remove (Sample.world [] true) "a.pdf" st) = Some "".
Proof.
  intros st.
  assert (Hnd : NoDup (Dict.keys (entries st))).
  { repeat constructor. simpl. intros []. }
  destruct (proj1 (remove_flushes_when_present
                     (Sample.world [] true) "a.pdf" st Hnd) eq_refl)
    as (_ & _ & Hcalls & Hfile).
  split; [exact Hcalls | exact Hfile].
Defined.

(** C6 as stated fails: at startup the store is empty while the index file
    of an earlier run is still on disk; removing a name that is not in the
    store calls [save] not once, and the file does not become the
    serialisation of the (empty) dictionary. *)
Lemma remove_absent_name_counterexample :
  let st := init_store (Some "---
old.pdf
0f
Acme
home
") in
  let st' := remove (Sample.world [] true) "a" st in
  save_calls st' = save_calls st
  /\ index_file st' = index_file st
  /\ index_file st' <> Some (serialize (entries st')).
Proof.
  cbv zeta. split; [reflexivity | split; [reflexivity |]].
  vm_compute. discriminate.
Qed.

(* ------------------------------------------------------------------ *)
(** ** Startup reconciliation *)

Section StartupFacts.

Variable w : World.
Variable ex : PDFMetadataExtractor.

Lemma store_eta (st : Store) :
  {| entries := entries st;
     index_file := index_file st;
     save_calls := save_calls st |} = st.
Proof. now destruct st. Qed.

Lemma process_one_step (st : Store) (count : nat) (pdf_file : string) :
  process_one w ex (st, count) pdf_file
  = match extract_metadata w ex pdf_file with
    | Return (Some e) =>
        ({| entries := Dict.set (name e) e (entries st);
            index_file := index_file st;
            save_calls := save_calls st |}, S count)
    | _ => (st, count)
    end.
Proof.
  unfold process_one.
  destruct (extract_metadata w ex pdf_file) as [|[e|]]; cbn;
    try reflexivity.
  now rewrite Nat.add_1_r.
Qed.

Lemma reconciliation_loop (files : list string) (st : Store) (count : nat) :
  fold_left (process_one w ex) files (st, count)
  = ({| entries := upsert_all (classified w ex files) (entries st);
        index_file := index_file st;
        save_calls := save_calls st |},
     (count + length (classified w ex files))%nat).
Proof.
  revert st count. induction files as [|f files IH]; intros st count.
  - cbn. now rewrite store_eta, Nat.add_0_r.
  - cbn [fold_left]. rewrite process_one_step.
    unfold classified. cbn [flat_map]. fold (classified w ex files).
    destruct (extract_metadata w ex f) as [|[e|]].
    + apply IH.
    + rewrite IH. cbn -[upsert_all].
      now rewrite Nat.add_succ_r.
    + apply IH.
Qed.

End StartupFacts.

(** C8. In the startup pass every file that classifies is upserted
    without a flush, every file that does not (or whose processing raises)
    is passed over and the pass goes on with the next file: whatever the
    files, the loop leaves the index file and the number of [save] calls
    as they were and counts the entries produced. After the pass [save] is
    called exactly once if at least one entry was produced and not at all
    otherwise. *)
Theorem process_existing_pdfs_single_flush
    (w : World) (watch_dir : string) (ex : PDFMetadataExtractor) (st : Store) :
  let produced := classified w ex (glob_pdf w watch_dir) in
  let st_loop := {| entries := upsert_all produced (entries st);
                    index_file := index_file st;
                    save_calls := save_calls st |} in
  (forall files st0 count,
      fold_left (process_one w ex) files (st0, count)
      = ({| entries := upsert_all (classified w ex files) (entries st0);
            index_file := index_file st0;
            save_calls := save_calls st0 |},
         (count + length (classified w ex files))%nat))
  /\ process_existing_pdfs w watch_dir ex st
     = match produced with
       | [] => st
       | _ :: _ => save w st_loop
       end
  /\ save_calls (process_existing_pdfs w watch_dir ex st)
     = (save_calls st + match produced with [] => 0 | _ :: _ => 1 end)%nat.
Proof.
  intros produced st_loop.
  assert (Hrun : process_existing_pdfs w watch_dir ex st
                 = match produced with
                   | [] => st
                   | _ :: _ => save w st_loop
                   end).
  { subst produced st_loop. unfold process_existing_pdfs.
    rewrite reconciliation_loop.
    destruct (glob_pdf w watch_dir) as [|f files]; [reflexivity |].
    destruct (classified w ex (f :: files)) as [|e es]; cbn.
    - apply store_eta.
    - reflexivity. }
  split; [apply reconciliation_loop | split; [exact Hrun |]].
  rewrite Hrun. destruct produced; cbn; lia.
Qed.

(** The scenario of three PDFs: after the startup pass the index file
    holds exactly the two classified records and was written once. *)
Example startup_scenario :
  let st := process_existing_pdfs Scenario.world "/watch" Sample.acme
                                  (init_store None) in
  Dict.keys (entries st) = ["a.pdf"; "b.pdf"]
  /\ save_calls st = 1%nat
  /\ index_file st = Some "---
a.pdf
sha:/watch/a.pdf
Acme
auto
---
b.pdf
sha:/watch/b.pdf
Acme
home
".
Proof. cbv zeta. split; [| split]; vm_compute; reflexivity. Qed.

(* ------------------------------------------------------------------ *)
(** ** Create and delete events *)

(** C1 fails on the code: for [/watch/a.pdf] the entry that
    [extract_metadata] builds is named ["a.pdf"], the file name with its
    extension, where the file name without extension is ["a"]. *)
Theorem extract_metadata_name_keeps_extension :
  extract_metadata (Sample.world [] true) Sample.acme "/watch/a.pdf"
  = Return (Some Sample.a_entry)
  /\ name Sample.a_entry = "a.pdf"
  /\ PurePath.stem (PurePath.parse "/watch/a.pdf") = "a"
  /\ Dict.keys (entries (on_created (Sample.world [] true) Sample.handler
                                    (Sample.file_event "/watch/a.pdf")
                                    (init_store None)))
     = ["a.pdf"].
Proof. repeat split. Qed.

(** C2 fails on the code: from the empty store, a create event for
    [/watch/a.pdf] writes its record to the index file, and the delete
    event for the same path removes the name ["a"], which is no key of the
    store: nothing is deleted, nothing is flushed, and the record stays in
    the index file. *)
Theorem create_then_delete_keeps_record :
  let w := Sample.world ["a.pdf"] true in
  let ev := Sample.file_event "/watch/a.pdf" in
  let created := on_created w Sample.handler ev (init_store None) in
  let deleted := on_deleted w Sample.handler ev created in
  index_file (init_store None) = None
  /\ created = {| entries := [("a.pdf", Sample.a_entry)];
                  index_file := Some (write_entry Sample.a_entry);
                  save_calls := 1 |}
  /\ deleted = created
  /\ index_file deleted = Some "---
a.pdf
sha:%PDF
Acme
auto
".
Proof. cbv zeta. repeat split. Qed.

(* ------------------------------------------------------------------ *)
(** ** File names and the two PDF filters *)

Lemma rfind_from_append (c : ascii) (a b : string) (i acc : Z) :
  Str.rfind_from c (a ++ b) i acc
  = Str.rfind_from c b (i + Str.len a) (Str.rfind_from c a i acc).
Proof.
  revert i acc. induction a as [|x a IH]; intros i acc.
  - cbn. now rewrite Z.add_0_r.
  - cbn [append Str.rfind_from]. rewrite IH. f_equal.
    unfold Str.len. cbn [String.length]. lia.
Qed.

Lemma drop_append (a b : string) : Str.drop (String.length a) (a ++ b) = b.
Proof. induction a as [|x a IH]; [reflexivity | exact IH]. Qed.

Lemma take_append (a b : string) : Str.take (String.length a) (a ++ b) = a.
Proof.
  induction a as [|x a IH]; cbn; [now destruct b | now rewrite IH].
Qed.

Lemma append_tail_inj (a b c d : string) :
  (a ++ b)%string = (c ++ d)%string ->
  String.length b = String.length d -> b = d.
Proof.
  revert c. induction a as [|x a IH]; intros [|y c] H Hlen; cbn in H.
  - exact H.
  - subst b. cbn in Hlen. rewrite length_append in Hlen. lia.
  - subst d. cbn in Hlen. rewrite length_append in Hlen. lia.
  - injection H as _ H. now apply IH with (c := c).
Qed.

Lemma lower_char_dot (c : ascii) :
  Str.lower_char c = "."%char -> c = "."%char.
Proof.
  destruct c as [[] [] [] [] [] [] [] []]; vm_compute; intros H;
    first [reflexivity | discriminate H].
Qed.

Lemma lower_char_letter (c x : ascii) :
  Str.lower_char c = x -> x <> "."%char -> Ascii.eqb c "." = false.
Proof.
  intros H Hx. apply Ascii.eqb_neq. intros ->. apply Hx. now rewrite <- H.
Qed.

(** An extension that lower-cases to [.pdf] is a dot and three letters. *)
Lemma lower_pdf_shape (ext : string) :
  Str.lower ext = ".pdf" ->
  exists c1 c2 c3,
    ext = String "." (String c1 (String c2 (String c3 "")))
    /\ Ascii.eqb c1 "." = false
    /\ Ascii.eqb c2 "." = false
    /\ Ascii.eqb c3 "." = false.
Proof.
  destruct ext as [|c0 [|c1 [|c2 [|c3 [|c4 rest]]]]]; cbn; try discriminate.
  intros H. injection H as H0 H1 H2 H3.
  apply lower_char_dot in H0. subst c0.
  exists c1, c2, c3. split; [reflexivity |].
  repeat split; eapply lower_char_letter; eauto; discriminate.
Qed.

Lemma suffix_stem_of_name (p : PurePath.t) (stem ext : string) :
  PurePath.name p = (stem ++ ext)%string ->
  stem <> "" ->
  Str.lower ext = ".pdf" ->
  PurePath.suffix p = ext /\ PurePath.stem p = stem.
Proof.
  intros Hname Hstem Hlow.
  destruct (@lower_pdf_shape ext Hlow) as (c1 & c2 & c3 & -> & E1 & E2 & E3).
  unfold PurePath.suffix, PurePath.stem. rewrite Hname.
  assert (Hi : Str.rfind "."
                 (stem ++ String "." (String c1 (String c2 (String c3 ""))))
               = Str.len stem).
  { unfold Str.rfind. rewrite rfind_from_append. cbn [Str.rfind_from].
    rewrite E1, E2, E3. cbn. reflexivity. }
  rewrite Hi.
  assert (Hpos : 0 < Str.len stem).
  { destruct stem; [congruence |]. unfold Str.len. cbn [String.length]. lia. }
  assert (Hlt : Str.len stem
                < Str.len (stem ++ String "."
                                     (String c1 (String c2 (String c3 "")))) - 1).
  { unfold Str.len. rewrite length_append. cbn [String.length]. lia. }
  apply Z.ltb_lt in Hpos, Hlt. rewrite Hpos, Hlt. cbn [andb].
  unfold Str.len. rewrite Nat2Z.id.
  split; [apply drop_append | apply take_append].
Qed.

Lemma matches_dot_pdf (s : string) :
  Glob.matches (Glob.tokens ".pdf") s = true <-> s = ".pdf".
Proof.
  split; [| intros ->; reflexivity].
  destruct s as [|c0 [|c1 [|c2 [|c3 [|c4 rest]]]]]; cbn;
    rewrite ?andb_false_r; try discriminate.
  rewrite andb_true_r, !andb_true_iff, !Ascii.eqb_eq.
  intros (-> & -> & -> & ->). reflexivity.
Qed.

(** The pattern of the startup pass accepts exactly the names that end in
    the lower-case [.pdf]. *)
Lemma fnmatch_star_pdf (nm : string) :
  Glob.fnmatch nm "*.pdf" = true <-> exists a, nm = (a ++ ".pdf")%string.
Proof.
  unfold Glob.fnmatch.
  change (Glob.tokens "*.pdf") with (Glob.Star :: Glob.tokens ".pdf").
  cbn [Glob.matches]. induction nm as [|c nm IH].
  - rewrite orb_false_r, matches_dot_pdf. split; [discriminate |].
    intros [[|x a] H]; discriminate.
  - rewrite orb_true_iff, matches_dot_pdf, IH. split.
    + intros [-> | [a ->]]; [now exists "" | now exists (String c a)].
    + intros [[|x a] H]; cbn in H.
      * now left.
      * right. injection H as _ ->. now exists a.
Qed.

Lemma fnmatch_other_case (stem ext : string) :
  Str.lower ext = ".pdf" -> ext <> ".pdf" ->
  Glob.fnmatch (stem ++ ext) "*.pdf" = false.
Proof.
  intros Hlow Hne. destruct (Glob.fnmatch (stem ++ ext) "*.pdf") eqn:E;
    [| reflexivity].
  apply fnmatch_star_pdf in E. destruct E as [a Ha].
  destruct (@lower_pdf_shape ext Hlow) as (c1 & c2 & c3 & Hext & _).
  apply append_tail_inj in Ha; [contradiction | now rewrite Hext].
Qed.

Lemma filter_filter_out (f : string -> bool) (nm : string) (l : list string) :
  f nm = false ->
  filter f (filter (fun n => negb (String.eqb n nm)) l) = filter f l.
Proof.
  intros Hf. induction l as [|x l IH]; [reflexivity |].
  cbn. destruct (String.eqb x nm) eqn:E; cbn.
  - apply String.eqb_eq in E. subst x. now rewrite Hf.
  - destruct (f x); [now rewrite IH | exact IH].
Qed.

(** C10. The live filter takes the extension case-insensitively: a
    top-level file whose extension is [.PDF] (or any other spelling of
    [.pdf] that is not all lower-case) passes [_is_pdf_in_root], its
    create and modify events are processed and its delete event reaches
    [remove]. The startup pass lists the names that match [*.pdf] only:
    such a file does not match, and the pass runs as if the file were not
    in the directory. *)
Theorem uppercase_extension_watched_not_reconciled
    (w : World) (self : PDFEventHandler) (path stem ext : string) :
  PurePath.parent (PurePath.parse path) = watch_directory self ->
  PurePath.name (PurePath.parse path) = (stem ++ ext)%string ->
  stem <> "" ->
  Str.lower ext = ".pdf" ->
  ext <> ".pdf" ->
  let event := {| is_directory := false; src_path := path |} in
  _is_pdf_in_root self path = true
  /\ (forall st, on_created w self event st = _process_pdf w self path st)
  /\ (forall st, on_modified w self event st = _process_pdf w self path st)
  /\ (forall st, on_deleted w self event st = remove w stem st)
  /\ Glob.fnmatch (stem ++ ext) "*.pdf" = false
  /\ (forall watch_dir ex st,
         process_existing_pdfs w watch_dir ex st
         = process_existing_pdfs (without_entry w (stem ++ ext))
                                 watch_dir ex st).
Proof.
  intros Hparent Hname Hstem Hlow Hne event.
  destruct (@suffix_stem_of_name (PurePath.parse path) stem ext
              Hname Hstem Hlow) as [Hsuffix Hstem'].
  assert (Heq : PurePath.eqb (PurePath.parent (PurePath.parse path))
                             (watch_directory self) = true).
  { rewrite Hparent. unfold PurePath.eqb. rewrite String.eqb_refl.
    now destruct (list_eq_dec string_dec _ _). }
  assert (Hroot : _is_pdf_in_root self path = true).
  { unfold _is_pdf_in_root. now rewrite Hsuffix, Hlow, Heq. }
  pose proof (@fnmatch_other_case stem ext Hlow Hne) as Hglob.
  split; [exact Hroot |].
  split; [intros st; unfold on_created; cbn; now rewrite Hroot |].
  split; [intros st; unfold on_modified; cbn; now rewrite Hroot |].
  split; [| split; [exact Hglob |]].
  - intros st. unfold on_deleted. cbn [is_directory src_path event].
    now rewrite Hsuffix, Hlow, Heq, Hstem'.
  - intros watch_dir ex st.
    assert (Hfiles : glob_pdf (without_entry w (stem ++ ext)) watch_dir
                     = glob_pdf w watch_dir).
    { unfold glob_pdf, without_entry. cbn [scandir].
      now rewrite filter_filter_out. }
    unfold process_existing_pdfs. rewrite Hfiles. reflexivity.
Qed.

Lemma uppercase_extension_watched_not_reconciled_witness :
  _is_pdf_in_root Sample.handler "/watch/B.PDF" = true
  /\ Glob.fnmatch "B.PDF" "*.pdf" = false.
Proof.
  destruct (@uppercase_extension_watched_not_reconciled
              (Sample.world ["a.pdf"; "B.PDF"] true) Sample.handler
              "/watch/B.PDF" "B" ".PDF")
    as (Hroot & _ & _ & _ & Hglob & _).
  - reflexivity.
  - reflexivity.
  - discriminate.
  - reflexivity.
  - discriminate.
  - split; [exact Hroot | exact Hglob].
Defined.

(* ------------------------------------------------------------------ *)
(** ** Hashing a file in blocks *)

Lemma append_empty_r (s : string) : (s ++ "")%string = s.
Proof. induction s as [|c s IH]; simpl; [reflexivity | now rewrite IH]. Qed.

Lemma append_assoc (a b c : string) :
  ((a ++ b) ++ c)%string = (a ++ b ++ c)%string.
Proof. induction a as [|x a IH]; simpl; [reflexivity | now rewrite IH]. Qed.

Lemma take_drop (n : nat) (s : string) :
  (Str.take n s ++ Str.drop n s)%string = s.
Proof.
  revert s. induction n as [|n IH]; intros [|c s]; simpl; try reflexivity.
  now rewrite IH.
Qed.

Lemma length_take (n : nat) (s : string) :
  (String.length (Str.take n s) <= n)%nat.
Proof.
  revert s. induction n as [|n IH]; intros [|c s]; simpl; try lia.
  specialize (IH s). lia.
Qed.

Lemma length_drop (n : nat) (s : string) :
  String.length (Str.drop n s) = (String.length s - n)%nat.
Proof.
  revert s. induction n as [|n IH]; intros [|c s]; simpl; try lia.
  apply IH.
Qed.

Lemma take_is_empty (n : nat) (s : string) :
  Str.is_empty (Str.take (S n) s) = Str.is_empty s.
Proof. now destruct s. Qed.

Lemma concat_cons (b : string) (bl : list string) :
  String.concat "" (b :: bl) = (b ++ String.concat "" bl)%string.
Proof. destruct bl; simpl; [now rewrite append_empty_r | reflexivity]. Qed.

Lemma read_blocks_step (fuel : nat) (content : string) :
  read_blocks (S fuel) content
  = if Str.is_empty (Str.take 4096 content) then []
    else Str.take 4096 content :: read_blocks fuel (Str.drop 4096 content).
Proof. reflexivity. Qed.

(** With enough fuel the blocks are the content cut into pieces of 4096
    bytes, the last one possibly shorter. *)
Lemma read_blocks_content (fuel : nat) (content : string) :
  (String.length content < fuel)%nat ->
  String.concat "" (read_blocks fuel content) = content
  /\ Forall (fun b => (0 < String.length b <= 4096)%nat)
            (read_blocks fuel content).
Proof.
  revert content. induction fuel as [|fuel IH]; intros content Hlen; [lia |].
  rewrite read_blocks_step.
  change 4096%nat with (S 4095).
  rewrite take_is_empty.
  destruct content as [|c rest] eqn:Ec; [now split |].
  rewrite <- Ec in *. assert (Hne : Str.is_empty content = false) by now subst.
  rewrite Hne.
  destruct (IH (Str.drop (S 4095) content)) as [Hcat Hall].
  { rewrite length_drop. subst content. cbn [String.length] in *. lia. }
  split.
  - rewrite concat_cons, Hcat. apply take_drop.
  - constructor; [| exact Hall]. split; [| apply length_take].
    subst content. cbn. lia.
Qed.

Lemma fold_update (h : Hashlib) (blocks : list string) (st : sha_state h) :
  streaming h ->
  fold_left (update h) blocks st = update h st (String.concat "" blocks).
Proof.
  intros [Hempty Happ]. revert st.
  induction blocks as [|b blocks IH]; intros st.
  - simpl. now rewrite Hempty.
  - rewrite concat_cons, Happ. apply IH.
Qed.

(** X1. [compute_file_hash] reads the file in blocks of at most 4096
    bytes that together are the whole content; with a stream hash the
    digest it returns is the digest of the content fed at once. It raises
    exactly when the file cannot be opened. *)
Theorem compute_file_hash_whole_content (w : World) (file_path : string) :
  streaming (hashlib w) ->
  (forall content,
      open_rb w file_path = Return content ->
      compute_file_hash w file_path
      = Return (hexdigest (hashlib w)
                  (update (hashlib w) (sha256 (hashlib w)) content))
      /\ String.concat "" (read_blocks (S (String.length content)) content)
         = content
      /\ Forall (fun b => (0 < String.length b <= 4096)%nat)
                (read_blocks (S (String.length content)) content))
  /\ (compute_file_hash w file_path = Raise <-> open_rb w file_path = Raise).
Proof.
  intros Hstream. split.
  - intros content Hopen.
    destruct (@read_blocks_content (S (String.length content)) content)
      as [Hcat Hall]; [lia |].
    split; [| split; assumption].
    unfold compute_file_hash. rewrite Hopen. cbn [bind].
    rewrite fold_update by assumption. now rewrite Hcat.
  - unfold compute_file_hash.
    destruct (open_rb w file_path); cbn [bind]; split; congruence.
Qed.

Lemma compute_file_hash_whole_content_witness :
  compute_file_hash (Sample.world [] true) "/watch/a.pdf" = Return "sha:%PDF".
Proof.
  assert (Hs : streaming (hashlib (Sample.world [] true))).
  { split; intros; cbn; [apply append_empty_r | symmetry; apply append_assoc]. }
  exact (proj1 (proj1 (compute_file_hash_whole_content
                         (Sample.world [] true) "/watch/a.pdf" Hs)
                      "%PDF" eq_refl)).
Defined.

(* ------------------------------------------------------------------ *)
(** ** The store's dictionary discipline *)

Lemma dict_keys_set (V : Type) (k : string) (v : V) (d : Dict.t V) :
  Dict.keys (Dict.set k v d)
  = if Dict.mem k d then Dict.keys d else Dict.keys d ++ [k].
Proof.
  induction d as [|[k' v'] d IH]; simpl; [reflexivity |].
  destruct (String.eqb k' k) eqn:E; simpl; [reflexivity |].
  rewrite IH. now destruct (Dict.mem k d).
Qed.

(** Where [set] writes: a key that is present keeps its place and the
    records around it; a new key goes last. *)
Lemma dict_set_present (V : Type) (k : string) (v : V) (d : Dict.t V) :
  Dict.mem k d = true ->
  exists pre old post,
    d = pre ++ (k, old) :: post
    /\ Dict.mem k pre = false
    /\ Dict.set k v d = pre ++ (k, v) :: post.
Proof.
  induction d as [|[k' v'] d IH]; simpl; [discriminate |].
  destruct (String.eqb k' k) eqn:E.
  - intros _. apply String.eqb_eq in E. subst k'.
    exists [], v', d. now repeat split.
  - simpl. intros Hm. destruct (IH Hm) as (pre & old & post & -> & Hpre & Hset).
    exists ((k', v') :: pre), old, post. simpl. rewrite E, Hset.
    now repeat split.
Qed.

Lemma store_ok_set (e : MetaEntry) (d : Dict.t MetaEntry) :
  store_ok d -> store_ok (Dict.set (name e) e d).
Proof.
  intros [Hnd Hall]. split.
  - rewrite dict_keys_set. destruct (Dict.mem (name e) d) eqn:M; [exact Hnd |].
    apply NoDup_app; [exact Hnd | repeat constructor; intros [] |].
    intros x Hx [<- | []].
    apply dict_mem_keys in Hx. congruence.
  - clear Hnd. induction d as [|[k' v'] d IH]; simpl.
    + repeat constructor.
    + inversion Hall as [|? ? Hk Hd]; subst.
      destruct (String.eqb k' (name e)) eqn:E.
      * apply String.eqb_eq in E. constructor; [exact E | exact Hd].
      * constructor; [exact Hk | now apply IH].
Qed.

Lemma store_ok_del (k : string) (d : Dict.t MetaEntry) :
  store_ok d -> store_ok (Dict.del k d).
Proof.
  intros [Hnd Hall]. rewrite dict_del_filter by assumption. split.
  - clear Hall. induction d as [|[k' v'] d IH]; simpl; [constructor |].
    inversion Hnd as [|? ? Hnotin Hnd']; subst.
    destruct (negb (String.eqb k' k)); [| now apply IH].
    simpl. constructor; [| now apply IH].
    intros Hin. apply Hnotin. unfold Dict.keys in *.
    apply in_map_iff in Hin. destruct Hin as (kv & Hkv & Hin).
    apply filter_In in Hin. apply in_map_iff. exists kv. tauto.
  - apply Forall_forall. intros kv Hin. apply filter_In in Hin.
    rewrite Forall_forall in Hall. now apply Hall.
Qed.

Lemma store_ok_upsert_all (es : list MetaEntry) (d : Dict.t MetaEntry) :
  store_ok d -> store_ok (upsert_all es d).
Proof.
  revert d. induction es as [|e es IH]; intros d Hd; [exact Hd |].
  simpl. apply IH. now apply store_ok_set.
Qed.

Section StoreOps.

Variable w : World.
Variable self : PDFEventHandler.

Lemma process_pdf_cases (path : string) (st : Store) :
  _process_pdf w self path st = st
  \/ exists e, extract_metadata w (extractor self) path = Return (Some e)
               /\ _process_pdf w self path st = add_or_update w e true st.
Proof.
  unfold _process_pdf.
  destruct (extract_metadata w (extractor self) path) as [|[e|]]; cbn; auto.
  right. now exists e.
Qed.

Lemma on_created_cases (event : Event) (st : Store) :
  on_created w self event st = st
  \/ exists e, on_created w self event st = add_or_update w e true st.
Proof.
  unfold on_created. destruct (is_directory event); [now left |].
  destruct (_is_pdf_in_root self (src_path event)); [| now left].
  destruct (process_pdf_cases (src_path event) st) as [H | (e & _ & H)];
    [now left | right; now exists e].
Qed.

Lemma on_modified_cases (event : Event) (st : Store) :
  on_modified w self event st = st
  \/ exists e, on_modified w self event st = add_or_update w e true st.
Proof. exact (on_created_cases event st). Qed.

Lemma on_deleted_cases (event : Event) (st : Store) :
  on_deleted w self event st = st
  \/ exists nm, Dict.mem nm (entries st) = true
                /\ on_deleted w self event st = remove w nm st.
Proof.
  unfold on_deleted. destruct (is_directory event); [now left |].
  destruct (_ && _); [| now left].
  set (nm := PurePath.stem (PurePath.parse (src_path event))).
  destruct (Dict.mem nm (entries st)) eqn:M.
  - right. now exists nm.
  - left. unfold remove. now rewrite M.
Qed.

(** Every event is one of three things to the store. *)
Lemma step_cases (st st' : Store) :
  step w self st st' ->
  st' = st
  \/ (exists e, st' = add_or_update w e true st)
  \/ (exists nm, Dict.mem nm (entries st) = true /\ st' = remove w nm st).
Proof.
  intros [event st0 | event st0 | event st0].
  - destruct (on_created_cases event st0) as [H | H]; auto.
  - destruct (on_modified_cases event st0) as [H | H]; auto.
  - destruct (on_deleted_cases event st0) as [H | (nm & M & H)]; auto.
    right. right. now exists nm.
Qed.

End StoreOps.

(** The startup pass in one equation. *)
Lemma startup_pass_result
    (w : World) (watch_dir : string) (ex : PDFMetadataExtractor) (st : Store) :
  process_existing_pdfs w watch_dir ex st
  = match classified w ex (glob_pdf w watch_dir) with
    | [] => st
    | _ :: _ =>
        save w {| entries := upsert_all (classified w ex (glob_pdf w watch_dir))
                                        (entries st);
                  index_file := index_file st;
                  save_calls := save_calls st |}
    end.
Proof.
  unfold process_existing_pdfs. rewrite reconciliation_loop.
  destruct (glob_pdf w watch_dir) as [|f files]; [reflexivity |].
  destruct (classified w ex (f :: files)) as [|e es]; cbn.
  - apply store_eta.
  - reflexivity.
Qed.

(** X2. Throughout a run of the watcher the dictionary keeps its
    discipline: every record is stored under its own name and no name
    occurs twice, so the index file never holds two records of one
    name. *)
Theorem reachable_store_ok
    (w : World) (ex : PDFMetadataExtractor) (watch_dir : string)
    (on_disk : option string) (st : Store) :
  reachable w ex watch_dir on_disk st -> store_ok (entries st).
Proof.
  induction 1 as [| st st' _ IH Hstep].
  - rewrite startup_pass_result.
    destruct (classified w ex (glob_pdf w watch_dir)) as [|e es] eqn:Ec.
    + split; constructor.
    + cbn [save entries]. apply store_ok_upsert_all. split; constructor.
  - apply step_cases in Hstep.
    destruct Hstep as [-> | [(e & ->) | (nm & M & ->)]].
    + exact IH.
    + cbn. now apply store_ok_set.
    + unfold remove. rewrite M. cbn. now apply store_ok_del.
Qed.

Lemma reachable_store_ok_witness :
  store_ok (entries (on_created (Sample.world ["a.pdf"] true) Sample.handler
                       (Sample.file_event "/watch/a.pdf")
                       (process_existing_pdfs (Sample.world ["a.pdf"] true)
                          "/watch" Sample.acme (init_store None)))).
Proof.
  apply (@reachable_store_ok (Sample.world ["a.pdf"] true) Sample.acme
                             "/watch" None).
  eapply reach_step; [apply reach_start |].
  apply (step_created (Sample.world ["a.pdf"] true)
           {| extractor := Sample.acme;
              watch_directory := PurePath.parse "/watch" |}).
Defined.

(* ------------------------------------------------------------------ *)
(** ** The index file during a run *)

Lemma save_in_sync (w : World) (st : Store) :
  meta_writable w = true -> in_sync (save w st).
Proof. intros Hw. unfold in_sync, save. cbn. now rewrite Hw. Qed.

(** X3. While the index file can be written, it is at every moment of a
    run the serialisation of the current dictionary, with one exception:
    as long as the startup pass and the events have classified nothing,
    the manager is still the fresh one and the file that the run found
    is untouched (a stale index of an earlier run stays on disk). *)
Theorem reachable_in_sync_or_untouched
    (w : World) (ex : PDFMetadataExtractor) (watch_dir : string)
    (on_disk : option string) (st : Store) :
  meta_writable w = true ->
  reachable w ex watch_dir on_disk st ->
  in_sync st \/ st = init_store on_disk.
Proof.
  intros Hw. induction 1 as [| st st' _ IH Hstep].
  - rewrite startup_pass_result.
    destruct (classified w ex (glob_pdf w watch_dir));
      [now right | left; now apply save_in_sync].
  - apply step_cases in Hstep.
    destruct Hstep as [-> | [(e & ->) | (nm & M & ->)]].
    + exact IH.
    + left. unfold add_or_update. now apply save_in_sync.
    + left. unfold remove. rewrite M. now apply save_in_sync.
Qed.

Lemma reachable_in_sync_or_untouched_witness :
  let st := on_created (Sample.world [] true) Sample.handler
              (Sample.file_event "/watch/a.pdf")
              (process_existing_pdfs (Sample.world [] true)
                 "/watch" Sample.acme (init_store (Some "stale"))) in
  in_sync st \/ st = init_store (Some "stale").
Proof.
  apply (@reachable_in_sync_or_untouched (Sample.world [] true) Sample.acme
                                         "/watch" (Some "stale")).
  - reflexivity.
  - eapply reach_step; [apply reach_start |].
    apply (step_created (Sample.world [] true)
             {| extractor := Sample.acme;
                watch_directory := PurePath.parse "/watch" |}).
Defined.

(* ------------------------------------------------------------------ *)
(** ** Where an upsert writes *)

Lemma concat_app (l1 l2 : list string) :
  String.concat "" (l1 ++ l2)
  = (String.concat "" l1 ++ String.concat "" l2)%string.
Proof.
  induction l1 as [|x l1 IH]; [reflexivity |].
  cbn [app]. now rewrite !concat_cons, IH, append_assoc.
Qed.

Lemma serialize_app (d1 d2 : Dict.t MetaEntry) :
  serialize (d1 ++ d2) = (serialize d1 ++ serialize d2)%string.
Proof. unfold serialize, Dict.values. now rewrite !map_app, concat_app. Qed.

Lemma serialize_cons (k : string) (e : MetaEntry) (d : Dict.t MetaEntry) :
  serialize ((k, e) :: d) = (write_entry e ++ serialize d)%string.
Proof. unfold serialize, Dict.values. cbn [map snd]. apply concat_cons. Qed.

(** X5. An upsert touches one record only. For a name that the store
    does not hold, the record is appended: the text of a flush is the
    former text followed by the new record. For a name that is held, the
    record is replaced where it stands and the records before and after
    it keep their bytes and their order. *)
Theorem add_or_update_one_record
    (w : World) (e : MetaEntry) (flush : bool) (st : Store) :
  (Dict.mem (name e) (entries st) = false ->
   entries (add_or_update w e flush st) = entries st ++ [(name e, e)]
   /\ serialize (entries (add_or_update w e flush st))
      = (serialize (entries st) ++ write_entry e)%string)
  /\ (Dict.mem (name e) (entries st) = true ->
      exists pre old post,
        entries st = pre ++ (name e, old) :: post
        /\ Dict.mem (name e) pre = false
        /\ entries (add_or_update w e flush st) = pre ++ (name e, e) :: post
        /\ serialize (entries (add_or_update w e flush st))
           = (serialize pre ++ write_entry e ++ serialize post)%string).
Proof.
  assert (He : entries (add_or_update w e flush st)
               = Dict.set (name e) e (entries st)) by now destruct flush.
  rewrite He. split; intros Hm.
  - rewrite (@dict_set_new _ (name e) e _ Hm). split; [reflexivity |].
    rewrite serialize_app, serialize_cons. unfold serialize at 3.
    cbn. now rewrite append_empty_r.
  - destruct (@dict_set_present _ (name e) e _ Hm)
      as (pre & old & post & Hd & Hpre & Hset).
    exists pre, old, post. rewrite Hset.
    repeat split; try assumption.
    now rewrite serialize_app, serialize_cons.
Qed.

Lemma add_or_update_one_record_witness :
  serialize (entries (add_or_update (Sample.world [] true) Sample.a_entry
                                    true (init_store None)))
  = (serialize [] ++ write_entry Sample.a_entry)%string.
Proof.
  apply (proj1 (add_or_update_one_record (Sample.world [] true)
                  Sample.a_entry true (init_store None))).
  reflexivity.
Defined.

(* ------------------------------------------------------------------ *)
(** ** More on the classifiers *)

Section ClassifierFacts.

Variable w : World.
Variable pdf_path : string.

Lemma scan_coordinates_tolerance self self' company_name coordinates :
  x_tolerance self' = x_tolerance self ->
  scan_coordinates w self' pdf_path company_name coordinates
  = scan_coordinates w self pdf_path company_name coordinates.
Proof.
  intros Htol. induction coordinates as [|coord rest IH]; [reflexivity |].
  rewrite !scan_coordinates_cons. cbv zeta. rewrite IH.
  replace (text_at w self' pdf_path (coord_query coord))
    with (text_at w self pdf_path (coord_query coord))
    by (unfold text_at, coord_query; now rewrite Htol).
  reflexivity.
Qed.

Lemma scan_companies_tolerance self self' configs :
  x_tolerance self' = x_tolerance self ->
  scan_companies w self' pdf_path configs
  = scan_companies w self pdf_path configs.
Proof.
  intros Htol. induction configs as [|cc rest IH]; [reflexivity |].
  cbn [scan_companies].
  now rewrite (scan_coordinates_tolerance self self' _ _ Htol), IH.
Qed.

Lemma scan_companies_app self configs more :
  fst (scan_companies w self pdf_path (configs ++ more))
  = match fst (scan_companies w self pdf_path configs) with
    | Some found => Some found
    | None => fst (scan_companies w self pdf_path more)
    end.
Proof.
  induction configs as [|cc rest IH]; [reflexivity |].
  cbn [app scan_companies].
  destruct (scan_coordinates w self pdf_path _ _) as [[found|] qs];
    [reflexivity |].
  destruct (scan_companies w self pdf_path (rest ++ more)) as [r1 qs1].
  destruct (scan_companies w self pdf_path rest) as [r2 qs2].
  exact IH.
Qed.

Lemma scan_companies_no_match self configs :
  Forall (fun cq => ~ region_matches w self pdf_path cq) (candidates configs) ->
  fst (scan_companies w self pdf_path configs) = None.
Proof.
  intros Hall.
  destruct (scan_companies_first_match w self pdf_path configs)
    as (hit & examined & Hfm & Hrun).
  rewrite Hrun. destruct hit as [x|]; [| reflexivity].
  inversion Hfm as [| pre y post Hpre Hy Heq]; subst.
  rewrite <- Heq in Hall. apply Forall_app in Hall.
  destruct Hall as [_ Hall]. inversion Hall; subst. contradiction.
Qed.

(** What a successful scan has seen. *)
Lemma scan_companies_found self configs found :
  fst (scan_companies w self pdf_path configs) = Some found ->
  exists cc coord text,
    In cc configs
    /\ get (cfg_company cc) "" = found
    /\ In coord (get (cfg_coordinates cc) [])
    /\ text_at w self pdf_path (coord_query coord) = Some text
    /\ Substring found text.
Proof.
  intros Hfound.
  destruct (scan_companies_first_match w self pdf_path configs)
    as (hit & examined & Hfm & Hrun).
  rewrite Hrun in Hfound. destruct hit as [[c q]|]; [| discriminate].
  cbn in Hfound. injection Hfound as ->.
  inversion Hfm as [| pre y post Hpre (text & Ht & Hsub) Heq]; subst.
  assert (Hin : In (found, q) (candidates configs)).
  { rewrite <- Heq. apply in_or_app. right. now left. }
  unfold candidates in Hin. apply in_flat_map in Hin.
  destruct Hin as (cc & Hcc & Hin). apply in_map_iff in Hin.
  destruct Hin as (coord & Hpair & Hcoord). injection Hpair as Hname Hq.
  exists cc, coord, text. subst q. cbn [fst snd] in *. auto.
Qed.

(** The name of a nameless profile is in every text. *)
Lemma scan_coordinates_nameless self coordinates :
  (exists coord text,
      In coord coordinates
      /\ text_at w self pdf_path (coord_query coord) = Some text) ->
  fst (scan_coordinates w self pdf_path "" coordinates) = Some "".
Proof.
  intros (coord & text & Hin & Ht).
  induction coordinates as [|c rest IH]; [contradiction |].
  rewrite scan_coordinates_cons. cbv zeta.
  destruct (text_at w self pdf_path (coord_query c)) as [text'|] eqn:Et.
  - now destruct text'.
  - rewrite fst_continue. destruct Hin as [-> | Hin]; [congruence |].
    now apply IH.
Qed.

Lemma find_config_app cname configs more profile :
  find_config cname configs = Some profile ->
  find_config cname (configs ++ more) = Some profile.
Proof.
  induction configs as [|cc rest IH]; [discriminate |].
  cbn. destruct (cfg_company cc) as [c|]; [| exact IH].
  destruct (String.eqb c cname); [auto | exact IH].
Qed.

End ClassifierFacts.

(** X6. A file that [pdfplumber] cannot open, or a PDF without pages,
    is never classified: every region gets the page-absent answer, no
    company is detected whatever the configuration, no entry is built,
    and processing the file leaves the store and the index file as they
    were. *)
Theorem unreadable_pdf_not_classified
    (w : World) (self : PDFEventHandler) (pdf_path : string) :
  pdfplumber_open w pdf_path = Raise \/ pdfplumber_open w pdf_path = Return [] ->
  (forall q, text_at w (extractor self) pdf_path q = None)
  /\ detect_company w (extractor self) pdf_path = None
  /\ (forall e, extract_metadata w (extractor self) pdf_path <> Return (Some e))
  /\ (forall st, _process_pdf w self pdf_path st = st).
Proof.
  intros Hopen.
  assert (Htext : forall q, text_at w (extractor self) pdf_path q = None).
  { intros [page [[[x1 y1] x2] y2]]. unfold text_at, extract_text_from_region.
    destruct Hopen as [-> | ->]; [reflexivity |]. cbn -[Z.geb Z.ltb].
    destruct (page >=? 0) eqn:E1; [reflexivity |].
    destruct (page <? 0) eqn:E2; [reflexivity |].
    rewrite Z.geb_leb in E1. apply Z.leb_gt in E1. apply Z.ltb_ge in E2. lia. }
  assert (Hnone : detect_company w (extractor self) pdf_path = None).
  { apply detect_company_no_match. apply Forall_forall.
    intros cq _ (text & Ht & _). rewrite Htext in Ht. discriminate. }
  assert (Hno : forall e,
             extract_metadata w (extractor self) pdf_path <> Return (Some e)).
  { intros e He. apply extract_metadata_some in He.
    destruct He as (_ & _ & Hc & _). congruence. }
  repeat split; try assumption.
  intros st. destruct (process_pdf_cases w self pdf_path st)
    as [H | (e & He & _)]; [exact H |].
  now apply Hno in He.
Qed.

Lemma unreadable_pdf_not_classified_witness :
  _process_pdf (Sample.world [] true) Sample.handler "/watch/broken.pdf"
               (init_store (Some "kept"))
  = init_store (Some "kept").
Proof.
  apply (@unreadable_pdf_not_classified (Sample.world [] true) Sample.handler
                                        "/watch/broken.pdf").
  left. reflexivity.
Defined.

(** X7. Every entry has its evidence in the configuration and in the
    document: it is named after the last component of the path and
    carries the digest of the file; its company is the name of a
    configured profile one of whose regions shows that name; and its
    insurance type is a key of the type map of the first profile of that
    name, with a phrase of that type on the first page. *)
Theorem extract_metadata_evidence
    (w : World) (self : PDFMetadataExtractor) (pdf_path : string)
    (e : MetaEntry) :
  extract_metadata w self pdf_path = Return (Some e) ->
  name e = PurePath.name (PurePath.parse pdf_path)
  /\ compute_file_hash w pdf_path = Return (file_hash e)
  /\ (exists cc coord text,
         In cc (companies_config self)
         /\ cfg_company cc = Some (company e)
         /\ In coord (get (cfg_coordinates cc) [])
         /\ text_at w self pdf_path (coord_query coord) = Some text
         /\ Substring (company e) text)
  /\ (exists profile phrase,
         find_config (company e) (companies_config self) = Some profile
         /\ In profile (companies_config self)
         /\ In (insurance_type e)
               (Dict.keys (get (cfg_insurance_types profile) []))
         /\ In (insurance_type e, phrase)
               (type_candidates (get (cfg_insurance_types profile) []))
         /\ Substring phrase (first_page_text w pdf_path (x_tolerance self))).
Proof.
  intros He. apply extract_metadata_some in He.
  destruct He as (Hname & Hhash & Hc & Hcne & Ht & Htne).
  split; [exact Hname | split; [exact Hhash | split]].
  - unfold detect_company, detect_company_run in Hc.
    apply scan_companies_found in Hc.
    destruct Hc as (cc & coord & text & Hin & Hnm & Hcoord & Htext & Hsub).
    exists cc, coord, text. repeat split; try assumption.
    destruct (cfg_company cc) as [c|]; cbn in Hnm; congruence.
  - rewrite (detect_insurance_type_nonempty w self pdf_path Hcne) in Ht.
    rewrite <- find_config_find in Ht.
    destruct (find_config (company e) (companies_config self))
      as [profile|] eqn:Ef; [| discriminate].
    destruct (find _ (type_candidates _)) as [[t phrase]|] eqn:Ep;
      [| discriminate].
    cbn in Ht. injection Ht as ->.
    apply find_some in Ep. destruct Ep as [Hin Hsub]. cbn [snd] in Hsub.
    exists profile, phrase. split; [reflexivity |].
    rewrite find_config_find in Ef. apply find_some in Ef.
    split; [tauto |]. split; [| split; [exact Hin | now apply contains_spec]].
    unfold type_candidates in Hin. apply in_flat_map in Hin.
    destruct Hin as ([k phrases] & Hk & Hin). apply in_map_iff in Hin.
    destruct Hin as (ph & Hpair & _). cbn [fst] in Hpair.
    injection Hpair as -> _.
    unfold Dict.keys. apply in_map_iff. now exists (insurance_type e, phrases).
Qed.

Lemma extract_metadata_evidence_witness :
  name Sample.a_entry = PurePath.name (PurePath.parse "/watch/a.pdf")
  /\ compute_file_hash (Sample.world [] true) "/watch/a.pdf"
     = Return (file_hash Sample.a_entry).
Proof.
  destruct (@extract_metadata_evidence (Sample.world [] true) Sample.acme
              "/watch/a.pdf" Sample.a_entry eq_refl) as (H1 & H2 & _).
  split; [exact H1 | exact H2].
Defined.

(** X8. Profiles appended to the configuration never change the entry of
    a document that the shorter configuration classifies: detection
    stops at the first match, and the type is looked up in the first
    profile of the detected name. A document that the shorter
    configuration gives no company is detected by the appended profiles
    alone. *)
Theorem appended_profiles_keep_entries
    (w : World) (self longer : PDFMetadataExtractor) (pdf_path : string)
    (more : list CompanyConfig) :
  x_tolerance longer = x_tolerance self ->
  companies_config longer = companies_config self ++ more ->
  (forall e,
      extract_metadata w self pdf_path = Return (Some e) ->
      extract_metadata w longer pdf_path = Return (Some e))
  /\ detect_company w longer pdf_path
     = match detect_company w self pdf_path with
       | Some found => Some found
       | None =>
           detect_company w {| companies_config := more;
                               x_tolerance := x_tolerance self |} pdf_path
       end.
Proof.
  intros Htol Hcfg.
  assert (Hdet : detect_company w longer pdf_path
                 = match detect_company w self pdf_path with
                   | Some found => Some found
                   | None =>
                       detect_company w {| companies_config := more;
                                           x_tolerance := x_tolerance self |}
                                      pdf_path
                   end).
  { unfold detect_company, detect_company_run. cbn [companies_config].
    rewrite Hcfg, (scan_companies_tolerance w pdf_path self longer _ Htol).
    rewrite scan_companies_app.
    destruct (fst (scan_companies w self pdf_path (companies_config self)));
      [reflexivity |].
    now rewrite (scan_companies_tolerance w pdf_path self
                   {| companies_config := more;
                      x_tolerance := x_tolerance self |}). }
  split; [| exact Hdet].
  intros e He. apply extract_metadata_some in He.
  destruct He as (Hname & Hhash & Hc & Hcne & Ht & Htne).
  rewrite Hc in Hdet.
  assert (Htype : detect_insurance_type w longer pdf_path (Some (company e))
                  = Some (insurance_type e)).
  { unfold detect_insurance_type in *. cbn [falsy] in *.
    destruct (Str.is_empty (company e)); [discriminate |].
    rewrite Hcfg, Htol.
    destruct (find_config (company e) (companies_config self))
      as [profile|] eqn:Ef; [| discriminate].
    now rewrite (find_config_app _ _ more Ef). }
  rewrite (extract_metadata_hashed w longer pdf_path Hhash). cbv zeta.
  rewrite Hdet, Htype. cbn [falsy].
  apply is_empty_false in Hcne, Htne. rewrite Hcne, Htne. cbn.
  rewrite <- Hname. now destruct e.
Qed.

Lemma appended_profiles_keep_entries_witness :
  extract_metadata (Sample.world [] true)
    {| companies_config := companies_config Sample.acme
                           ++ [Sample.profile "Globex" [1]];
       x_tolerance := 1 |} "/watch/a.pdf"
  = Return (Some Sample.a_entry).
Proof.
  apply (proj1 (@appended_profiles_keep_entries
                  (Sample.world [] true) Sample.acme
                  {| companies_config := companies_config Sample.acme
                                         ++ [Sample.profile "Globex" [1]];
                     x_tolerance := 1 |}
                  "/watch/a.pdf" [Sample.profile "Globex" [1]]
                  eq_refl eq_refl)).
  reflexivity.
Defined.

(** X9. A profile without a company name (the key is missing or empty)
    shadows every profile after it: if no earlier region matches and one
    of its regions lies on a page that can be read, the empty name is
    "found" in that text, [detect_company] returns the empty string, and
    the document gets no entry, whatever the later profiles would
    match. *)
Theorem nameless_profile_shadows
    (w : World) (self : PDFMetadataExtractor) (pdf_path : string)
    (before after : list CompanyConfig) (cc : CompanyConfig) :
  companies_config self = before ++ cc :: after ->
  Forall (fun cq => ~ region_matches w self pdf_path cq) (candidates before) ->
  get (cfg_company cc) "" = "" ->
  (exists coord text,
      In coord (get (cfg_coordinates cc) [])
      /\ text_at w self pdf_path (coord_query coord) = Some text) ->
  detect_company w self pdf_path = Some ""
  /\ forall e, extract_metadata w self pdf_path <> Return (Some e).
Proof.
  intros Hcfg Hbefore Hname Hcoord.
  assert (Hdet : detect_company w self pdf_path = Some "").
  { unfold detect_company, detect_company_run.
    rewrite Hcfg, scan_companies_app.
    rewrite (@scan_companies_no_match w pdf_path self before Hbefore).
    cbn [scan_companies]. rewrite Hname.
    pose proof (@scan_coordinates_nameless w pdf_path self _ Hcoord) as Hs.
    destruct (scan_coordinates w self pdf_path "" _) as [r qs].
    cbn [fst] in Hs. now subst r. }
  split; [exact Hdet |].
  intros e He. apply extract_metadata_some in He.
  destruct He as (_ & _ & Hc & Hcne & _). congruence.
Qed.

Lemma nameless_profile_shadows_witness :
  detect_company (Sample.world [] true)
    {| companies_config := [Sample.profile "" [1]; Sample.profile "Acme" [1]];
       x_tolerance := 1 |} "/watch/a.pdf"
  = Some "".
Proof.
  apply (@nameless_profile_shadows (Sample.world [] true)
           {| companies_config := [Sample.profile "" [1];
                                   Sample.profile "Acme" [1]];
              x_tolerance := 1 |}
           "/watch/a.pdf" [] [Sample.profile "Acme" [1]]
           (Sample.profile "" [1])).
  - reflexivity.
  - constructor.
  - reflexivity.
  - exists (Sample.region 1), "Acme Insurance". split; [now left | reflexivity].
Defined.

(* ------------------------------------------------------------------ *)
(** ** Characters, lines and blanks *)

Lemma contains_char (c a : ascii) (s : string) :
  Str.contains (String c "") (String a s)
  = Ascii.eqb c a || Str.contains (String c "") s.
Proof. cbn. now rewrite andb_true_r. Qed.

Lemma contains_char_app (c : ascii) (a b : string) :
  Str.contains (String c "") (a ++ b)
  = Str.contains (String c "") a || Str.contains (String c "") b.
Proof.
  induction a as [|x a IH]; [reflexivity |].
  cbn [append]. now rewrite !contains_char, IH, orb_assoc.
Qed.

Lemma split_step (sep c : ascii) (s : string) :
  Str.split sep (String c s)
  = if Ascii.eqb c sep then "" :: Str.split sep s
    else match Str.split sep s with
         | [] => [String c ""]
         | h :: t => String c h :: t
         end.
Proof. reflexivity. Qed.

(** A string without the separator is one piece. *)
Lemma split_clean (sep : ascii) (f : string) :
  Str.contains (String sep "") f = false -> Str.split sep f = [f].
Proof.
  induction f as [|c f IH]; [reflexivity |].
  rewrite contains_char. intros H. apply orb_false_iff in H.
  destruct H as [Hc Hf]. rewrite split_step, Ascii.eqb_sym, Hc.
  now rewrite (IH Hf).
Qed.

Lemma split_clean_app (sep : ascii) (f g : string) :
  Str.contains (String sep "") f = false ->
  Str.split sep (f ++ String sep g) = f :: Str.split sep g.
Proof.
  induction f as [|c f IH]; intros H.
  - cbn [append]. now rewrite split_step, Ascii.eqb_refl.
  - rewrite contains_char in H. apply orb_false_iff in H.
    destruct H as [Hc Hf]. cbn [append].
    rewrite split_step, Ascii.eqb_sym, Hc. now rewrite (IH Hf).
Qed.

Lemma length_lstrip (s : string) :
  (String.length (Str.lstrip s) <= String.length s)%nat.
Proof.
  induction s as [|c s IH]; cbn; [lia |].
  destruct (Str.isspace c); cbn; lia.
Qed.

Lemma length_rstrip (s : string) :
  (String.length (Str.rstrip s) <= String.length s)%nat.
Proof.
  induction s as [|c s IH]; cbn; [lia |].
  destruct (Str.isspace c && Str.is_empty (Str.rstrip s)); cbn; lia.
Qed.

(** A string that [strip] leaves alone has no blank at either end. *)
Lemma strip_fixed (f : string) :
  Str.strip f = f ->
  Str.rstrip f = f
  /\ match f with
     | EmptyString => True
     | String c _ => Str.isspace c = false
     end.
Proof.
  destruct f as [|c f]; [now split |].
  unfold Str.strip. cbn [Str.lstrip].
  destruct (Str.isspace c) eqn:E; [| now split].
  intros H. pose proof (length_rstrip (Str.lstrip f)) as H1.
  pose proof (length_lstrip f) as H2. rewrite H in H1. cbn in H1. lia.
Qed.

Lemma rstrip_app_blank (a : string) (c : ascii) :
  Str.isspace c = true -> Str.rstrip (a ++ String c "") = Str.rstrip a.
Proof.
  intros Hc. induction a as [|x a IH]; cbn.
  - now rewrite Hc.
  - now rewrite IH.
Qed.

Lemma rstrip_app_fixed (a b : string) :
  Str.rstrip b = b -> b <> "" -> Str.rstrip (a ++ b) = (a ++ b)%string.
Proof.
  intros Hb Hne. induction a as [|x a IH]; [exact Hb |].
  cbn. rewrite IH.
  destruct (a ++ b)%string eqn:E.
  - destruct a; [cbn in E; congruence | discriminate].
  - cbn. now rewrite andb_false_r.
Qed.

(** What is left of a stripped string begins with a character that is
    no blank. *)
Lemma strip_head (s : string) (c : ascii) (r : string) :
  Str.strip s = String c r -> Str.isspace c = false.
Proof.
  unfold Str.strip. induction s as [|x s IH]; cbn; [discriminate |].
  destruct (Str.isspace x) eqn:E; [exact IH |].
  cbn. rewrite E. cbn. now intros [= <- _].
Qed.

Lemma strip_nonblank_head (c : ascii) (h : string) :
  Str.isspace c = false -> Str.strip (String c h) <> "".
Proof.
  intros Hc. unfold Str.strip. cbn. rewrite Hc. cbn. rewrite Hc.
  discriminate.
Qed.

Lemma universal_newlines_clean (s : string) :
  Str.contains (String "013" "") s = false -> Str.universal_newlines s = s.
Proof.
  induction s as [|c s IH]; [reflexivity |].
  rewrite contains_char. intros H. apply orb_false_iff in H.
  destruct H as [Hc Hs]. cbn [Str.universal_newlines].
  rewrite Ascii.eqb_sym, Hc. now rewrite (IH Hs).
Qed.

(* ------------------------------------------------------------------ *)
(** ** Reading the index file back *)

(** A line feed stops a separator: whether [---] starts a string does
    not depend on what follows the first line feed. *)
Lemma startswith_sep_line (x g : string) :
  Str.startswith "---" (x ++ String "010" g) = Str.startswith "---" x.
Proof.
  destruct x as [|a [|b [|c r]]]; cbn; rewrite ?andb_false_r; reflexivity.
Qed.

Lemma contains_sep_line (f g : string) :
  Str.contains "---" (f ++ String "010" g)
  = Str.contains "---" f || Str.contains "---" g.
Proof.
  induction f as [|c f IH].
  - reflexivity.
  - cbn [append]. cbn [Str.contains].
    change (String c (f ++ String "010" g))
      with (String c f ++ String "010" g)%string.
    now rewrite startswith_sep_line, IH, orb_assoc.
Qed.

Lemma split_str_from_step (sep : string) (c : ascii) (s : string) :
  Str.split_str_from sep (String c s) 0
  = if Str.startswith sep (String c s)
    then "" :: Str.split_str_from sep s (String.length sep - 1)
    else match Str.split_str_from sep s 0 with
         | [] => [String c ""]
         | h :: t => String c h :: t
         end.
Proof. reflexivity. Qed.

Lemma split_str_separator (t : string) :
  Str.split_str_from "---" ("---" ++ t) 0 = "" :: Str.split_str_from "---" t 0.
Proof. reflexivity. Qed.

(** A block without separator that ends its line reaches the next
    separator whole. *)
Lemma split_str_block (b t h : string) (tl : list string) :
  Str.contains "---" (b ++ String "010" "") = false ->
  Str.split_str_from "---" t 0 = h :: tl ->
  Str.split_str_from "---" (b ++ String "010" t) 0
  = (b ++ String "010" h)%string :: tl.
Proof.
  intros Hb Ht. induction b as [|c b IH].
  - cbn [append]. rewrite split_str_from_step.
    change (Str.startswith "---" (String "010" t)) with false.
    cbv iota. now rewrite Ht.
  - cbn [append] in *. cbn [Str.contains] in Hb.
    apply orb_false_iff in Hb. destruct Hb as [Hhead Hrest].
    rewrite split_str_from_step.
    change (String c (b ++ String "010" t))
      with (String c b ++ String "010" t)%string.
    rewrite startswith_sep_line.
    change (String c (b ++ String "010" ""))
      with (String c b ++ String "010" "")%string in Hhead.
    rewrite startswith_sep_line in Hhead. rewrite Hhead.
    cbn [append]. now rewrite (IH Hrest).
Qed.

Lemma write_entry_block (e : MetaEntry) :
  write_entry e = ("---" ++ record_block e)%string.
Proof.
  unfold write_entry, record_block, record_lines.
  repeat (rewrite append_assoc; cbn [append]). reflexivity.
Qed.

Section RoundTrip.

Variable e : MetaEntry.
Hypothesis Hclean : clean_entry e.

Lemma record_block_no_separator :
  Str.contains "---" (record_block e) = false.
Proof.
  destruct Hclean as ((_ & _ & Hn & _) & (_ & _ & Hh & _) & (_ & _ & Hc & _)
                      & (_ & _ & Ht & _) & _).
  change (record_block e)
    with ("" ++ String "010" (record_lines e ++ String "010" ""))%string.
  unfold record_lines. rewrite !contains_sep_line, Hn, Hh, Hc, Ht.
  reflexivity.
Qed.

Lemma record_block_no_return :
  Str.contains (String "013" "") (write_entry e) = false.
Proof.
  destruct Hclean as ((_ & Hn & _) & (_ & Hh & _) & (_ & Hc & _)
                      & (_ & Ht & _) & _).
  unfold write_entry. rewrite !contains_char_app, Hn, Hh, Hc, Ht.
  reflexivity.
Qed.

Lemma strip_record_block : Str.strip (record_block e) = record_lines e.
Proof.
  destruct Hclean as ((_ & _ & _ & Hn) & _ & _ & (_ & _ & _ & Ht) & Hne & Hte).
  apply strip_fixed in Hn, Ht. destruct Hn as [_ Hhead], Ht as [Ht _].
  unfold Str.strip, record_block. cbn [Str.lstrip].
  change (Str.isspace "010") with true. cbv iota.
  assert (Hl : Str.lstrip (record_lines e ++ String "010" "")
               = (record_lines e ++ String "010" "")%string).
  { unfold record_lines. destruct (name e) as [|c r]; [congruence |].
    cbn. now rewrite Hhead. }
  rewrite Hl, rstrip_app_blank by reflexivity.
  assert (Heq : record_lines e
                = ((name e ++ String "010" (file_hash e ++ String "010"
                      (company e ++ String "010" "")))
                   ++ insurance_type e)%string).
  { unfold record_lines. repeat (rewrite append_assoc; cbn [append]).
    reflexivity. }
  rewrite Heq. now apply rstrip_app_fixed.
Qed.

Lemma parse_record_block : parse_block (record_block e) = Some e.
Proof.
  unfold parse_block. rewrite strip_record_block.
  destruct Hclean as ((Hn1 & _ & _ & Hn) & (Hh1 & _ & _ & Hh)
                      & (Hc1 & _ & _ & Hc) & (Ht1 & _ & _ & Ht) & Hne & _).
  assert (Hnonempty : Str.is_empty (record_lines e) = false).
  { unfold record_lines. destruct (name e); [congruence | reflexivity]. }
  rewrite Hnonempty. unfold record_lines.
  rewrite !split_clean_app by assumption.
  rewrite (@split_clean _ _ Ht1), Hn, Hh, Hc, Ht. now destruct e.
Qed.

End RoundTrip.

Lemma split_str_records (es : list MetaEntry) :
  Forall clean_entry es ->
  Str.split_str "---" (String.concat "" (map write_entry es))
  = "" :: match es with
          | [] => []
          | _ :: _ => map record_block es
          end.
Proof.
  unfold Str.split_str. induction 1 as [|e es He _ IH]; [reflexivity |].
  cbn [map]. rewrite concat_cons, write_entry_block, append_assoc.
  rewrite split_str_separator. f_equal.
  pose proof (record_block_no_separator He) as Hsep.
  unfold record_block in *.
  change (String "010" (record_lines e ++ String "010" "")
          ++ String.concat "" (map write_entry es))%string
    with (String "010" ((record_lines e ++ String "010" "")
                        ++ String.concat "" (map write_entry es)))%string.
  rewrite append_assoc. cbn [append].
  change (String "010" (record_lines e ++ String "010" ?t))
    with (String "010" (record_lines e) ++ String "010" t)%string.
  rewrite (@split_str_block _ _ "" (match es with
                                    | [] => []
                                    | _ :: _ => map record_block es
                                    end)).
  - destruct es; reflexivity.
  - exact Hsep.
  - exact IH.
Qed.

Lemma load_blocks_records (es : list MetaEntry) (d : Dict.t MetaEntry) :
  Forall clean_entry es ->
  fold_left (fun d block => match parse_block block with
                            | Some e => Dict.set (name e) e d
                            | None => d
                            end) (map record_block es) d
  = upsert_all es d.
Proof.
  intros Hall. revert d. induction Hall as [|e es He _ IH]; intros d;
    [reflexivity |].
  cbn [map fold_left]. rewrite (parse_record_block He). apply IH.
Qed.

(** Upserting the records of a disciplined dictionary, in order, builds
    that dictionary. *)
Lemma upsert_all_values (d2 d1 : Dict.t MetaEntry) :
  store_ok (d1 ++ d2) -> upsert_all (Dict.values d2) d1 = d1 ++ d2.
Proof.
  revert d1. induction d2 as [|[k e] d2 IH]; intros d1 Hok.
  - cbn. now rewrite app_nil_r.
  - cbn [Dict.values map snd upsert_all fold_left].
    destruct Hok as [Hnd Hall].
    assert (Hk : k = name e).
    { apply Forall_app in Hall. destruct Hall as [_ Hall].
      now inversion Hall. }
    subst k.
    assert (Hnew : Dict.mem (name e) d1 = false).
    { destruct (Dict.mem (name e) d1) eqn:M; [| reflexivity].
      apply dict_mem_keys in M. unfold Dict.keys in Hnd.
      rewrite map_app in Hnd. cbn [map fst] in Hnd.
      apply NoDup_remove_2 in Hnd. exfalso. apply Hnd.
      apply in_or_app. now left. }
    rewrite (@dict_set_new _ (name e) e d1 Hnew).
    change (fold_left (fun d e0 => Dict.set (name e0) e0 d) (map snd d2)
              (d1 ++ [(name e, e)]))
      with (upsert_all (Dict.values d2) (d1 ++ [(name e, e)])).
    rewrite IH; rewrite <- app_assoc; [reflexivity |]. now split.
Qed.

(** X10. Round trip of the index file. If the dictionary keeps its
    discipline and every field of every record is a single line without
    the separator [---] and without blanks at its ends, with a name and
    an insurance type that are not empty, then [load] reads back from
    the file that [save] wrote exactly the dictionary that was saved,
    records and order. *)
Theorem load_save_round_trip (w : World) (st : Store) :
  meta_writable w = true ->
  store_ok (entries st) ->
  Forall clean_entry (Dict.values (entries st)) ->
  entries (load true (save w st)) = entries st
  /\ load true (save w st) = save w st.
Proof.
  intros Hw Hok Hclean.
  assert (He : entries (load true (save w st)) = entries st).
  { unfold load, save. cbn [index_file entries]. rewrite Hw.
    assert (Hret : Str.contains (String "013" "") (serialize (entries st))
                   = false).
    { unfold serialize. induction Hclean as [|e es He _ IH]; [reflexivity |].
      cbn [map]. rewrite concat_cons, contains_char_app.
      now rewrite (record_block_no_return He), IH. }
    rewrite (universal_newlines_clean _ Hret). unfold serialize, load_blocks.
    rewrite (split_str_records Hclean). cbn [fold_left].
    change (parse_block "") with (@None MetaEntry). cbv iota.
    destruct (Dict.values (entries st)) as [|e es] eqn:Ev.
    - destruct (entries st); [reflexivity | discriminate].
    - rewrite <- Ev in *. rewrite (load_blocks_records _ Hclean).
      now apply (upsert_all_values (entries st) []). }
  split; [exact He |].
  rewrite <- (store_eta (save w st)) at 2.
  unfold load at 1. f_equal. exact He.
Qed.

Lemma load_save_round_trip_witness :
  entries (load true (save (Sample.world [] true)
                        {| entries := [("a.pdf", Sample.a_entry)];
                           index_file := None; save_calls := 0 |}))
  = [("a.pdf", Sample.a_entry)].
Proof.
  apply (@load_save_round_trip (Sample.world [] true)
           {| entries := [("a.pdf", Sample.a_entry)];
              index_file := None; save_calls := 0 |}).
  - reflexivity.
  - split; repeat constructor. intros [].
  - repeat constructor; discriminate.
Defined.

Lemma split_head (sep c : ascii) (s : string) :
  Ascii.eqb c sep = false ->
  exists h t, Str.split sep (String c s) = String c h :: t.
Proof.
  intros Hc. rewrite split_step, Hc.
  destruct (Str.split sep s) as [|h t]; [now exists "", [] | now exists h, t].
Qed.

(** Every record that [load] accepts has a name. *)
Lemma parse_block_name (block : string) (e : MetaEntry) :
  parse_block block = Some e -> name e <> "".
Proof.
  unfold parse_block.
  destruct (Str.strip block) as [|c r] eqn:Es; [discriminate |].
  pose proof (strip_head _ Es) as Hc. cbn [Str.is_empty].
  assert (Hnl : Ascii.eqb c "010" = false).
  { apply Ascii.eqb_neq. intros ->. discriminate. }
  destruct (@split_head "010" c r Hnl) as (h & t & ->).
  destruct t as [|l1 [|l2 [|l3 t]]]; try discriminate.
  intros [= <-]. cbn [name]. now apply strip_nonblank_head.
Qed.

Lemma load_blocks_ok (blocks : list string) (d : Dict.t MetaEntry) :
  store_ok d ->
  Forall (fun kv => name (snd kv) <> "") d ->
  let d' := fold_left (fun d block => match parse_block block with
                                      | Some e => Dict.set (name e) e d
                                      | None => d
                                      end) blocks d in
  store_ok d' /\ Forall (fun kv => name (snd kv) <> "") d'.
Proof.
  revert d. induction blocks as [|b blocks IH]; intros d Hok Hnames;
    [now split |].
  cbn [fold_left]. destruct (parse_block b) as [e|] eqn:Eb; [| now apply IH].
  apply IH; [now apply store_ok_set |].
  pose proof (parse_block_name _ Eb) as Hne. clear - Hnames Hne.
  induction d as [|[k v] d IHd]; cbn.
  - now repeat constructor.
  - inversion Hnames; subst.
    destruct (String.eqb k (name e)); constructor; auto.
Qed.

(** X11. Whatever the index file holds, [load] leaves a disciplined
    dictionary: every record under its own name, no name twice, no
    record without a name. The dictionary that was in memory is dropped;
    a missing or unreadable file gives the empty dictionary; the file
    itself is not touched. *)
Theorem load_any_file (readable : bool) (st : Store) :
  store_ok (entries (load readable st))
  /\ Forall (fun kv => name (snd kv) <> "") (entries (load readable st))
  /\ index_file (load readable st) = index_file st
  /\ load readable st
     = load readable {| entries := [];
                        index_file := index_file st;
                        save_calls := save_calls st |}
  /\ (index_file st = None \/ readable = false ->
      entries (load readable st) = []).
Proof.
  assert (Hempty : store_ok (@nil (string * MetaEntry))
                   /\ Forall (fun kv : string * MetaEntry =>
                                name (snd kv) <> "") []).
  { repeat split; constructor. }
  split; [| split; [| split; [reflexivity | split; [reflexivity |]]]].
  - unfold load. cbn [entries].
    destruct (index_file st); [| apply Hempty].
    destruct readable; [| apply Hempty].
    now apply load_blocks_ok.
  - unfold load. cbn [entries].
    destruct (index_file st); [| apply Hempty].
    destruct readable; [| apply Hempty].
    now apply load_blocks_ok.
  - intros [H | H]; unfold load; cbn [entries]; rewrite H;
      [reflexivity | now destruct (index_file st)].
Qed.

Lemma load_any_file_witness :
  entries (load true (init_store None)) = [].
Proof.
  apply (proj2 (proj2 (proj2 (proj2 (load_any_file true (init_store None)))))).
  left. reflexivity.
Defined.

(* ------------------------------------------------------------------ *)
(** ** Paths and their text *)

Lemma splitroot_relative (s : string) :
  head_not_slash s -> PurePath.splitroot s = ("", s).
Proof.
  destruct s as [|c r]; [reflexivity |]. cbn [head_not_slash].
  destruct c as [[] [] [] [] [] [] [] []]; cbn; intros H;
    first [reflexivity | discriminate H].
Qed.

Lemma lstrip_sep_relative (s : string) :
  head_not_slash s ->
  (fix lstrip_sep (s : string) : string :=
     match s with
     | String "/" s' => lstrip_sep s'
     | _ => s
     end) s = s.
Proof.
  destruct s as [|c r]; [reflexivity |]. cbn [head_not_slash].
  destruct c as [[] [] [] [] [] [] [] []]; cbn; intros H;
    first [reflexivity | discriminate H].
Qed.

Lemma splitroot_slash (s : string) :
  head_not_slash s -> PurePath.splitroot (String "/" s) = ("/", s).
Proof.
  intros H. unfold PurePath.splitroot. cbv beta iota.
  match goal with
  | |- context [Str.len ?a - Str.len ?b] =>
      replace b with s; [replace (Str.len a - Str.len s) with 1 |]
  end.
  - reflexivity.
  - unfold Str.len. cbn [String.length]. lia.
  - symmetry. apply (lstrip_sep_relative s H).
Qed.

Lemma splitroot_two_slashes (s : string) :
  head_not_slash s ->
  PurePath.splitroot (String "/" (String "/" s)) = ("//", s).
Proof.
  intros H. unfold PurePath.splitroot. cbv beta iota.
  match goal with
  | |- context [Str.len ?a - Str.len ?b] =>
      replace b with s; [replace (Str.len a - Str.len s) with 2 |]
  end.
  - reflexivity.
  - unfold Str.len. cbn [String.length]. lia.
  - symmetry. apply (lstrip_sep_relative s H).
Qed.

Lemma splitroot_root (s : string) :
  In (fst (PurePath.splitroot s)) [""; "/"; "//"].
Proof.
  destruct s as [|c r]; [now left |].
  destruct c as [[] [] [] [] [] [] [] []]; try (now left).
  unfold PurePath.splitroot. cbv beta iota.
  destruct (_ =? 2); cbn; auto.
Qed.

Lemma split_no_separator (sep : ascii) (s : string) :
  Forall (fun x => Str.contains (String sep "") x = false) (Str.split sep s).
Proof.
  induction s as [|c s IH]; [now repeat constructor |].
  rewrite split_step. destruct (Ascii.eqb c sep) eqn:E.
  - now constructor.
  - destruct (Str.split sep s) as [|h t].
    + repeat constructor. rewrite contains_char, Ascii.eqb_sym, E.
      reflexivity.
    + inversion IH; subst. constructor; [| assumption].
      rewrite contains_char, Ascii.eqb_sym, E. assumption.
Qed.

Lemma parse_parsed (s : string) : parsed_path (PurePath.parse s).
Proof.
  unfold PurePath.parse. pose proof (splitroot_root s) as Hroot.
  destruct (PurePath.splitroot s) as [rt rel]. split; [exact Hroot |].
  cbn [PurePath.parts]. apply Forall_forall. intros x Hx.
  apply filter_In in Hx. destruct Hx as [Hx Hkeep]. split; [exact Hkeep |].
  pose proof (split_no_separator "/" rel) as Hall.
  rewrite Forall_forall in Hall. now apply Hall.
Qed.

Lemma plain_name_head (x : string) :
  plain_name x -> exists c r, x = String c r /\ Ascii.eqb c "/" = false.
Proof.
  intros [Hkeep Hslash]. destruct x as [|c r]; [discriminate |].
  exists c, r. split; [reflexivity |].
  rewrite contains_char in Hslash. apply orb_false_iff in Hslash.
  now rewrite Ascii.eqb_sym.
Qed.

Lemma join_step (p q : string) (rest : list string) :
  Str.join "/" (p :: q :: rest)
  = (p ++ String "/" (Str.join "/" (q :: rest)))%string.
Proof. reflexivity. Qed.

Lemma join_head (parts : list string) :
  Forall plain_name parts -> head_not_slash (Str.join "/" parts).
Proof.
  intros Hall. destruct Hall as [|p rest Hp _]; [exact I |].
  destruct (plain_name_head Hp) as (c & r & -> & Hc).
  destruct rest; [exact Hc | rewrite join_step; exact Hc].
Qed.

Lemma split_join (parts : list string) :
  Forall plain_name parts ->
  filter PurePath.keep_part (Str.split "/" (Str.join "/" parts)) = parts.
Proof.
  induction 1 as [|p rest [Hkeep Hslash] Hrest IH]; [reflexivity |].
  destruct rest as [|q rest].
  - cbn [Str.join]. rewrite (@split_clean _ _ Hslash). cbn. now rewrite Hkeep.
  - rewrite join_step, (@split_clean_app _ _ _ Hslash).
    cbn [filter]. now rewrite Hkeep, IH.
Qed.

(** The text of a path parses back to the path. *)
Lemma parse_to_str (p : PurePath.t) :
  parsed_path p -> PurePath.parse (PurePath.to_str p) = p.
Proof.
  destruct p as [rt parts]. intros [Hroot Hparts]. cbn in Hroot, Hparts.
  pose proof (join_head Hparts) as Hhead.
  pose proof (split_join Hparts) as Hsplit.
  unfold PurePath.to_str, PurePath.parse. cbn [PurePath.root PurePath.parts].
  destruct Hroot as [<- | [<- | [<- | []]]].
  - cbn [append]. destruct parts as [|p rest]; [reflexivity |].
    assert (Hne : Str.is_empty (Str.join "/" (p :: rest)) = false).
    { inversion Hparts as [|? ? Hp _]; subst.
      destruct (plain_name_head Hp) as (c & r & -> & _).
      destruct rest; [reflexivity | now rewrite join_step]. }
    rewrite Hne, (splitroot_relative _ Hhead). now rewrite Hsplit.
  - cbn [append Str.is_empty].
    rewrite (splitroot_slash _ Hhead). now rewrite Hsplit.
  - cbn [append Str.is_empty].
    rewrite (splitroot_two_slashes _ Hhead). now rewrite Hsplit.
Qed.

(** A directory entry under a parsed directory: its text parses to the
    directory and the entry name. *)
Lemma parse_child (dir : PurePath.t) (nm : string) :
  parsed_path dir -> plain_name nm ->
  PurePath.parse (PurePath.to_str (PurePath.joinpath dir nm))
  = PurePath.joinpath dir nm
  /\ PurePath.name (PurePath.joinpath dir nm) = nm
  /\ PurePath.parent (PurePath.joinpath dir nm) = dir.
Proof.
  intros [Hroot Hparts] Hnm. split; [| split].
  - apply parse_to_str. split; [exact Hroot |].
    cbn. apply Forall_app. split; [exact Hparts | now constructor].
  - unfold PurePath.name, PurePath.joinpath. cbn. apply last_last.
  - unfold PurePath.parent, PurePath.joinpath. cbn.
    rewrite removelast_last. destruct dir as [rt parts]. cbn.
    now destruct parts.
Qed.

Lemma purepath_eqb_refl (p : PurePath.t) : PurePath.eqb p p = true.
Proof.
  unfold PurePath.eqb. rewrite String.eqb_refl.
  now destruct (list_eq_dec string_dec _ _).
Qed.

(** X12. The files of the startup pass are top-level PDFs by name. With
    a directory listing of plain entry names, every path that the pass
    enumerates is the watch directory joined with a listed name ending
    in the lower-case [.pdf]; the entry built from it is named exactly
    that listed name; and unless the name is the bare [.pdf], the live
    filter accepts the same path, so later events keep the record up to
    date. *)
Theorem startup_files_are_listed_pdfs
    (w : World) (ex : PDFMetadataExtractor) (watch_dir f : string) :
  Forall plain_name
         (scandir w (PurePath.to_str (PurePath.parse watch_dir))) ->
  In f (glob_pdf w watch_dir) ->
  exists nm stem,
    In nm (scandir w (PurePath.to_str (PurePath.parse watch_dir)))
    /\ nm = (stem ++ ".pdf")%string
    /\ PurePath.parse f = PurePath.joinpath (PurePath.parse watch_dir) nm
    /\ PurePath.name (PurePath.parse f) = nm
    /\ PurePath.parent (PurePath.parse f) = PurePath.parse watch_dir
    /\ (forall e, extract_metadata w ex f = Return (Some e) -> name e = nm)
    /\ (stem <> "" ->
        _is_pdf_in_root {| extractor := ex;
                           watch_directory := PurePath.parse watch_dir |} f
        = true).
Proof.
  intros Hplain Hin. unfold glob_pdf in Hin. apply in_map_iff in Hin.
  destruct Hin as (nm & <- & Hnm). apply filter_In in Hnm.
  destruct Hnm as [Hlisted Hmatch].
  apply fnmatch_star_pdf in Hmatch. destruct Hmatch as [stem Hstem].
  rewrite Forall_forall in Hplain.
  destruct (parse_child (parse_parsed watch_dir) (Hplain nm Hlisted))
    as (Hparse & Hname & Hparent).
  exists nm, stem. rewrite Hparse.
  repeat split; try assumption.
  - intros e He. apply extract_metadata_some in He.
    destruct He as (He & _). now rewrite He, Hparse.
  - intros Hne. unfold _is_pdf_in_root. cbn [watch_directory].
    rewrite Hparse, Hparent, purepath_eqb_refl.
    destruct (@suffix_stem_of_name
                (PurePath.joinpath (PurePath.parse watch_dir) nm) stem ".pdf")
      as [Hsuffix _]; [now rewrite Hname | exact Hne | reflexivity |].
    now rewrite Hsuffix.
Qed.

Lemma startup_files_are_listed_pdfs_witness :
  exists nm stem,
    In nm ["a.pdf"; "B.PDF"] /\ nm = (stem ++ ".pdf")%string
    /\ PurePath.name (PurePath.parse "/watch/a.pdf") = nm.
Proof.
  destruct (@startup_files_are_listed_pdfs
              (Sample.world ["a.pdf"; "B.PDF"] true) Sample.acme
              "/watch" "/watch/a.pdf")
    as (nm & stem & H1 & H2 & _ & H3 & _).
  - repeat constructor.
  - now left.
  - exists nm, stem. repeat split; assumption.
Defined.

Lemma meta_name_plain (dir : PurePath.t) :
  parsed_path dir -> plain_name (PurePath.name dir ++ ".meta")%string.
Proof.
  intros [_ Hparts]. unfold PurePath.name.
  assert (Hlast : Str.contains "/" (last (PurePath.parts dir) "") = false).
  { destruct (PurePath.parts dir) as [|p rest] eqn:E; [reflexivity |].
    rewrite Forall_forall in Hparts. apply Hparts.
    rewrite <- E.
    rewrite (@app_removelast_last _ (PurePath.parts dir) "") at 2
      by (rewrite E; discriminate).
    apply in_or_app. right. now left. }
  split.
  - destruct (last (PurePath.parts dir) "") as [|c [|c' r]];
      cbn; try reflexivity; now destruct (Ascii.eqb c ".").
  - now rewrite contains_char_app, Hlast.
Qed.

Lemma suffix_meta (q : PurePath.t) (x : string) :
  PurePath.name q = (x ++ ".meta")%string ->
  String.eqb (Str.lower (PurePath.suffix q)) ".pdf" = false.
Proof.
  intros Hname. unfold PurePath.suffix. rewrite Hname.
  assert (Hi : Str.rfind "." (x ++ ".meta") = Str.len x).
  { unfold Str.rfind. rewrite rfind_from_append. reflexivity. }
  rewrite Hi. destruct (_ && _); [| reflexivity].
  unfold Str.len. now rewrite Nat2Z.id, drop_append.
Qed.

(** X13. The watcher never reacts to its own index file. The file lies
    at the top level of the watch directory, but its name ends in
    [.meta]: the live filter rejects its path, and create, modify and
    delete events for it leave the store as it is. *)
Theorem index_file_events_ignored
    (w : World) (ex : PDFMetadataExtractor) (watch_dir : string) (st : Store) :
  let self := {| extractor := ex;
                 watch_directory := PurePath.parse watch_dir |} in
  let path := PurePath.to_str (meta_file_path (PurePath.parse watch_dir)) in
  let event := {| is_directory := false; src_path := path |} in
  PurePath.parent (PurePath.parse path) = PurePath.parse watch_dir
  /\ PurePath.name (PurePath.parse path)
     = (PurePath.name (PurePath.parse watch_dir) ++ ".meta")%string
  /\ _is_pdf_in_root self path = false
  /\ on_created w self event st = st
  /\ on_modified w self event st = st
  /\ on_deleted w self event st = st.
Proof.
  intros self path event.
  destruct (parse_child (parse_parsed watch_dir)
                        (meta_name_plain (parse_parsed watch_dir)))
    as (Hparse & Hname & Hparent).
  fold (meta_file_path (PurePath.parse watch_dir)) in Hparse, Hname, Hparent.
  fold path in Hparse.
  pose proof (suffix_meta (PurePath.parse path) (PurePath.name (PurePath.parse watch_dir)))
    as Hsuffix.
  rewrite Hparse in Hsuffix. specialize (Hsuffix Hname).
  rewrite <- Hparse in Hsuffix, Hname, Hparent.
  assert (Hroot : _is_pdf_in_root self path = false).
  { unfold _is_pdf_in_root. now rewrite Hsuffix. }
  repeat split; try assumption.
  - unfold on_created. cbn [is_directory src_path event]. now rewrite Hroot.
  - unfold on_modified. cbn [is_directory src_path event]. now rewrite Hroot.
  - unfold on_deleted. cbn [is_directory src_path event]. now rewrite Hsuffix.
Qed.

(* ------------------------------------------------------------------ *)
(** ** More on blanks *)

Lemma rstrip_rstrip (s : string) : Str.rstrip (Str.rstrip s) = Str.rstrip s.
Proof.
  induction s as [|c s IH]; [reflexivity |].
  cbn [Str.rstrip].
  destruct (Str.isspace c && Str.is_empty (Str.rstrip s)) eqn:E;
    [reflexivity |].
  cbn [Str.rstrip]. now rewrite IH, E.
Qed.

Lemma lstrip_head (s : string) :
  match Str.lstrip s with
  | EmptyString => True
  | String c _ => Str.isspace c = false
  end.
Proof.
  induction s as [|c s IH]; [exact I |].
  cbn [Str.lstrip]. destruct (Str.isspace c) eqn:E; [exact IH | exact E].
Qed.

Lemma lstrip_nonblank (c : ascii) (s : string) :
  Str.isspace c = false -> Str.lstrip (String c s) = String c s.
Proof. intros H. cbn. now rewrite H. Qed.

(** Stripping twice is stripping once. *)
Lemma strip_strip (s : string) : Str.strip (Str.strip s) = Str.strip s.
Proof.
  unfold Str.strip. pose proof (lstrip_head s) as Hh.
  destruct (Str.lstrip s) as [|c r]; [reflexivity |].
  cbn [Str.rstrip]. rewrite Hh. cbn [andb].
  rewrite lstrip_nonblank by exact Hh.
  cbn [Str.rstrip]. now rewrite Hh, rstrip_rstrip.
Qed.

Lemma lstrip_app_blank (s : string) (c : ascii) :
  Str.isspace c = true ->
  Str.lstrip (s ++ String c "")
  = match Str.lstrip s with
    | EmptyString => EmptyString
    | String _ _ => (Str.lstrip s ++ String c "")%string
    end.
Proof.
  intros Hc. induction s as [|x s IH]; cbn.
  - now rewrite Hc.
  - destruct (Str.isspace x); [exact IH | reflexivity].
Qed.

(** A line feed at the end does not survive [strip]. *)
Lemma strip_app_newline (s : string) :
  Str.strip (s ++ String "010" "") = Str.strip s.
Proof.
  unfold Str.strip. rewrite lstrip_app_blank by reflexivity.
  destruct (Str.lstrip s) as [|c r] eqn:E; [reflexivity |].
  now apply rstrip_app_blank.
Qed.

(* ------------------------------------------------------------------ *)
(** ** The data extractor *)

Section DataExtractorFacts.

Import DataExtractor.

Variable pdfplumber_open : string -> exn (list Page).

Lemma gather_app (a b : list Page) (bbox : BBox) (x_tol : Q) (acc : string) :
  gather (a ++ b) bbox x_tol acc
  = bind (gather a bbox x_tol acc) (gather b bbox x_tol).
Proof.
  revert acc. induction a as [|page a IH]; intros acc; [reflexivity |].
  cbn [app gather]. destruct (crop_extract_text page bbox x_tol);
    [apply IH | reflexivity |].
  destruct (falsy page_text); apply IH.
Qed.

Lemma gather_other_error (pages : list Page) (bbox : BBox) (x_tol : Q)
      (page : Page) (acc : string) :
  In page pages ->
  crop_extract_text page bbox x_tol = OtherError ->
  gather pages bbox x_tol acc = Raise.
Proof.
  revert acc. induction pages as [|p pages IH]; intros acc Hin Herr;
    [contradiction |].
  cbn [gather]. destruct Hin as [-> | Hin]; [now rewrite Herr |].
  destruct (crop_extract_text p bbox x_tol); [now apply IH | reflexivity |].
  destruct (falsy page_text); now apply IH.
Qed.

Lemma dict_set_in (V : Type) (k : string) (v : V) (d : Dict.t V) :
  In (k, v) (Dict.set k v d).
Proof.
  induction d as [|[k' v'] d IH]; cbn; [now left |].
  destruct (String.eqb k' k) eqn:E.
  - apply String.eqb_eq in E. subst k'. now left.
  - now right.
Qed.

Lemma dict_set_other (V : Type) (k l : string) (v t : V) (d : Dict.t V) :
  l <> k -> In (l, t) d -> In (l, t) (Dict.set k v d).
Proof.
  intros Hne. induction d as [|[k' v'] d IH]; cbn; [contradiction |].
  intros [H | H].
  - injection H as -> ->. destruct (String.eqb l k) eqn:E.
    + apply String.eqb_eq in E. contradiction.
    + now left.
  - destruct (String.eqb k' k); right; auto.
Qed.

Lemma dict_set_nodup (V : Type) (k : string) (v : V) (d : Dict.t V) :
  NoDup (Dict.keys d) -> NoDup (Dict.keys (Dict.set k v d)).
Proof.
  intros Hnd. rewrite dict_keys_set.
  destruct (Dict.mem k d) eqn:M; [exact Hnd |].
  apply NoDup_app; [exact Hnd | repeat constructor; intros [] |].
  intros x Hx [<- | []]. apply dict_mem_keys in Hx. congruence.
Qed.

Lemma dict_set_keys_in (V : Type) (k l : string) (v : V) (d : Dict.t V) :
  In l (Dict.keys (Dict.set k v d)) <-> l = k \/ In l (Dict.keys d).
Proof.
  rewrite dict_keys_set. destruct (Dict.mem k d) eqn:M.
  - apply dict_mem_keys in M. split; [auto | intros [-> | H]; auto].
  - rewrite in_app_iff. cbn. intuition congruence.
Qed.

Lemma extract_selections_spec
      (pdf_file : string) (x_tol : Q) (selections : list Selection)
      (acc d : Dict.t string) :
  extract_selections pdfplumber_open pdf_file selections x_tol acc = Return d ->
  NoDup (Dict.keys acc) ->
  NoDup (Dict.keys d)
  /\ (forall l, In l (Dict.keys d)
                <-> In l (Dict.keys acc) \/ In l (map label selections))
  /\ (forall l t, In (l, t) acc -> ~ In l (map label selections) ->
                  In (l, t) d)
  /\ (forall before selection after,
         selections = before ++ selection :: after ->
         ~ In (label selection) (map label after) ->
         exists text,
           extract_text_from_coordinates pdfplumber_open pdf_file
             (coordinates selection) (page selection) x_tol = Return text
           /\ In (label selection, text) d).
Proof.
  revert acc. induction selections as [|sel rest IH]; intros acc Hrun Hnd.
  - cbn in Hrun. injection Hrun as <-.
    split; [exact Hnd | split; [| split]].
    + intros l. cbn. tauto.
    + auto.
    + intros before selection after H. now destruct before.
  - cbn [extract_selections] in Hrun.
    destruct (extract_text_from_coordinates pdfplumber_open pdf_file
                (coordinates sel) (page sel) x_tol) as [|text] eqn:Et;
      [discriminate |].
    cbn [bind] in Hrun.
    destruct (IH _ Hrun (@dict_set_nodup _ (label sel) text _ Hnd))
      as (H1 & H2 & H3 & H4).
    split; [exact H1 | split; [| split]].
    + intros l. rewrite H2, dict_set_keys_in. cbn [map]. cbn. intuition.
    + intros l t Hin Hnot. cbn [map] in Hnot. apply H3.
      * apply dict_set_other; [| exact Hin]. intros ->. apply Hnot. now left.
      * intros H. apply Hnot. now right.
    + intros before selection after Heq Hlast.
      destruct before as [|b before]; cbn in Heq; injection Heq as <- ->.
      * exists text. split; [exact Et |].
        apply H3; [apply dict_set_in | exact Hlast].
      * now apply (H4 before selection after).
Qed.

End DataExtractorFacts.

(** X14. Which pages [extract_text_from_coordinates] reads. A page
    number between 1 and the page count selects that page alone, and the
    result is its stripped text (empty if the box lies outside the
    page). Without a page number, with page number 0, and with a page
    number that is negative or beyond the last page, all pages are
    read. *)
Theorem extract_text_page_selection
    (pdfplumber_open : string -> exn (list DataExtractor.Page))
    (input_file : string) (pages : list DataExtractor.Page)
    (bbox : BBox) (x_tol : Q) :
  pdfplumber_open input_file = Return pages ->
  (forall n page,
      1 <= n <= Z.of_nat (length pages) ->
      nth_error pages (Z.to_nat (n - 1)) = Some page ->
      DataExtractor.extract_text_from_coordinates
        pdfplumber_open input_file bbox (Some n) x_tol
      = match DataExtractor.crop_extract_text page bbox x_tol with
        | DataExtractor.ValueError => Return ""
        | DataExtractor.OtherError => Raise
        | DataExtractor.Extracted page_text =>
            Return (Str.strip (get page_text ""))
        end)
  /\ (forall n,
         n <= 0 \/ Z.of_nat (length pages) < n ->
         DataExtractor.extract_text_from_coordinates
           pdfplumber_open input_file bbox (Some n) x_tol
         = DataExtractor.extract_text_from_coordinates
             pdfplumber_open input_file bbox None x_tol).
Proof.
  intros Hopen. split.
  - intros n page Hn Hpage.
    unfold DataExtractor.extract_text_from_coordinates,
      DataExtractor.pages_to_process.
    rewrite Hopen. cbn [bind].
    replace (n =? 0) with false by (symmetry; apply Z.eqb_neq; lia).
    replace ((1 <=? n) && (n <=? Z.of_nat (length pages))) with true
      by (symmetry; apply andb_true_iff; split; apply Z.leb_le; lia).
    rewrite Hpage. cbn [DataExtractor.gather].
    destruct (DataExtractor.crop_extract_text page bbox x_tol)
      as [| |[text|]]; try reflexivity.
    cbn [falsy]. destruct (Str.is_empty text) eqn:E.
    + destruct text; [reflexivity | discriminate E].
    + cbn [bind get append]. now rewrite strip_app_newline.
  - intros n Hn.
    unfold DataExtractor.extract_text_from_coordinates,
      DataExtractor.pages_to_process.
    rewrite Hopen. cbn [bind].
    destruct (n =? 0) eqn:E0; [reflexivity |].
    replace ((1 <=? n) && (n <=? Z.of_nat (length pages))) with false;
      [reflexivity |].
    symmetry. apply andb_false_iff.
    destruct Hn as [Hn | Hn]; [left | right]; apply Z.leb_gt; lia.
Qed.

Lemma extract_text_page_selection_witness :
  DataExtractor.extract_text_from_coordinates
    SampleData.documents "doc.pdf" SampleData.box (Some 1) 1%Q
  = Return "Policy 42".
Proof.
  apply (proj1 (@extract_text_page_selection SampleData.documents "doc.pdf"
                  [SampleData.first; SampleData.second] SampleData.box 1%Q
                  eq_refl) 1 SampleData.first).
  - cbn. lia.
  - reflexivity.
Defined.

(** X15. Failures of single pages. A page on which the box cannot be
    cropped ([ValueError]) is passed over: the result is that of the
    document without this page. Any other error on a page that is read
    makes the whole extraction raise, as does a file that cannot be
    opened. *)
Theorem extract_text_page_errors
    (open_with open_without : string -> exn (list DataExtractor.Page))
    (input_file : string) (before after : list DataExtractor.Page)
    (page : DataExtractor.Page) (bbox : BBox) (x_tol : Q) :
  open_with input_file = Return (before ++ page :: after) ->
  open_without input_file = Return (before ++ after) ->
  (DataExtractor.crop_extract_text page bbox x_tol = DataExtractor.ValueError ->
   DataExtractor.extract_text_from_coordinates
     open_with input_file bbox None x_tol
   = DataExtractor.extract_text_from_coordinates
       open_without input_file bbox None x_tol)
  /\ (DataExtractor.crop_extract_text page bbox x_tol
      = DataExtractor.OtherError ->
      DataExtractor.extract_text_from_coordinates
        open_with input_file bbox None x_tol = Raise)
  /\ (forall missing page_number,
         open_with missing = Raise ->
         DataExtractor.extract_text_from_coordinates
           open_with missing bbox page_number x_tol = Raise).
Proof.
  intros Hwith Hwithout. split; [| split].
  - intros Herr. unfold DataExtractor.extract_text_from_coordinates.
    rewrite Hwith, Hwithout. cbn [bind DataExtractor.pages_to_process].
    rewrite !gather_app. cbn [DataExtractor.gather].
    destruct (DataExtractor.gather before bbox x_tol "") as [|acc];
      [reflexivity |].
    cbn [bind DataExtractor.gather]. now rewrite Herr.
  - intros Herr. unfold DataExtractor.extract_text_from_coordinates.
    rewrite Hwith. cbn [bind DataExtractor.pages_to_process].
    rewrite (@gather_other_error (before ++ page :: after) bbox x_tol page "");
      [reflexivity | | exact Herr].
    apply in_or_app. right. now left.
  - intros missing page_number Hmissing.
    unfold DataExtractor.extract_text_from_coordinates. now rewrite Hmissing.
Qed.

Lemma extract_text_page_errors_witness :
  DataExtractor.extract_text_from_coordinates
    SampleData.documents "doc.pdf" SampleData.box None 1%Q
  = DataExtractor.extract_text_from_coordinates
      (fun _ => Return [SampleData.first]) "doc.pdf" SampleData.box None 1%Q.
Proof.
  apply (proj1 (@extract_text_page_errors
                  SampleData.documents (fun _ => Return [SampleData.first])
                  "doc.pdf" [SampleData.first] [] SampleData.second
                  SampleData.box 1%Q eq_refl eq_refl)).
  reflexivity.
Defined.

(** X16. What [extract_data_from_pdf] returns. When it returns, the
    dictionary has exactly the labels of the selections as keys, each
    once; the value under a label is the text extracted for the last
    selection that carries the label; and every text in it is stripped.
    It raises as soon as the extraction for one selection raises. *)
Theorem extract_data_labels
    (pdfplumber_open : string -> exn (list DataExtractor.Page))
    (pdf_file : string) (selections : list DataExtractor.Selection)
    (x_tol : Q) :
  (forall d,
      DataExtractor.extract_data_from_pdf
        pdfplumber_open pdf_file selections x_tol = Return d ->
      NoDup (Dict.keys d)
      /\ (forall l, In l (Dict.keys d)
                    <-> In l (map DataExtractor.label selections))
      /\ (forall before selection after,
             selections = before ++ selection :: after ->
             ~ In (DataExtractor.label selection)
                  (map DataExtractor.label after) ->
             exists text,
               DataExtractor.extract_text_from_coordinates
                 pdfplumber_open pdf_file
                 (DataExtractor.coordinates selection)
                 (DataExtractor.page selection) x_tol = Return text
               /\ Str.strip text = text
               /\ In (DataExtractor.label selection, text) d))
  /\ (forall selection,
         In selection selections ->
         DataExtractor.extract_text_from_coordinates
           pdfplumber_open pdf_file
           (DataExtractor.coordinates selection)
           (DataExtractor.page selection) x_tol = Raise ->
         DataExtractor.extract_data_from_pdf
           pdfplumber_open pdf_file selections x_tol = Raise).
Proof.
  split.
  - intros d Hrun. unfold DataExtractor.extract_data_from_pdf in Hrun.
    destruct (@extract_selections_spec pdfplumber_open pdf_file x_tol
                selections [] d Hrun) as (H1 & H2 & _ & H4); [constructor |].
    split; [exact H1 | split].
    + intros l. rewrite H2. cbn. tauto.
    + intros before selection after Heq Hlast.
      destruct (H4 before selection after Heq Hlast) as (text & Ht & Hin).
      exists text. repeat split; try assumption.
      unfold DataExtractor.extract_text_from_coordinates in Ht.
      destruct (pdfplumber_open pdf_file) as [|pages]; [discriminate |].
      cbn [bind] in Ht.
      destruct (DataExtractor.gather _ _ _ _) as [|full]; [discriminate |].
      cbn [bind] in Ht. injection Ht as <-. apply strip_strip.
  - unfold DataExtractor.extract_data_from_pdf. generalize (@nil (string * string)).
    induction selections as [|sel rest IH]; intros acc selection Hin Herr;
      [contradiction |].
    cbn [DataExtractor.extract_selections]. destruct Hin as [-> | Hin].
    + now rewrite Herr.
    + destruct (DataExtractor.extract_text_from_coordinates
                  pdfplumber_open pdf_file (DataExtractor.coordinates sel)
                  (DataExtractor.page sel) x_tol) eqn:Esel; [reflexivity |].
      cbn [bind]. now apply IH with (selection := selection).
Qed.

Lemma extract_data_labels_witness :
  exists text,
    DataExtractor.extract_text_from_coordinates
      SampleData.documents "doc.pdf" SampleData.box (Some 1) 1%Q = Return text
    /\ Str.strip text = text
    /\ In ("number", text) [("number", "Policy 42")].
Proof.
  apply (proj2 (proj2 (proj1 (@extract_data_labels
                                SampleData.documents "doc.pdf"
                                [SampleData.number_field None;
                                 SampleData.number_field (Some 1)] 1%Q)
                             [("number", "Policy 42")] eq_refl))
               [SampleData.number_field None] (SampleData.number_field (Some 1))
               [] eq_refl).
  intros [].
Defined.

(* ------------------------------------------------------------------ *)
(** ** One record per classified file *)

Section StartupRecords.

Variable w : World.
Variable ex : PDFMetadataExtractor.

Lemma classified_names_in (files : list string) (x : string) :
  In x (map name (classified w ex files)) ->
  In x (map (fun f => PurePath.name (PurePath.parse f)) files).
Proof.
  induction files as [|f files IH]; [contradiction |].
  unfold classified. cbn [flat_map map]. fold (classified w ex files).
  rewrite map_app, in_app_iff. intros [H | H]; [left | right; now apply IH].
  destruct (extract_metadata w ex f) as [|[e|]] eqn:Ef; try contradiction.
  destruct H as [<- | []]. apply extract_metadata_some in Ef.
  symmetry. apply Ef.
Qed.

Lemma classified_names_nodup (files : list string) :
  NoDup (map (fun f => PurePath.name (PurePath.parse f)) files) ->
  NoDup (map name (classified w ex files)).
Proof.
  induction files as [|f files IH]; [constructor |].
  cbn [map]. intros Hnd. inversion Hnd as [|? ? Hnotin Hnd']; subst.
  unfold classified. cbn [flat_map]. fold (classified w ex files).
  destruct (extract_metadata w ex f) as [|[e|]] eqn:Ef; cbn [app];
    try now apply IH.
  cbn [map]. constructor; [| now apply IH].
  intros Hin. apply classified_names_in in Hin.
  apply extract_metadata_some in Ef. destruct Ef as [Hname _].
  rewrite Hname in Hin. contradiction.
Qed.

Lemma upsert_all_fresh (es : list MetaEntry) :
  NoDup (map name es) ->
  upsert_all es [] = map (fun e => (name e, e)) es.
Proof.
  intros Hnd.
  pose proof (@upsert_all_values (map (fun e => (name e, e)) es) []) as H.
  unfold Dict.values in H. rewrite map_map in H. cbn [snd] in H.
  rewrite map_id in H. apply H. cbn [app]. split.
  - unfold Dict.keys. rewrite map_map. exact Hnd.
  - apply Forall_forall. intros kv Hin. apply in_map_iff in Hin.
    now destruct Hin as (e & <- & _).
Qed.

Lemma glob_pdf_names (watch_dir : string) :
  Forall plain_name
         (scandir w (PurePath.to_str (PurePath.parse watch_dir))) ->
  map (fun f => PurePath.name (PurePath.parse f)) (glob_pdf w watch_dir)
  = filter (fun nm => Glob.fnmatch nm "*.pdf")
           (scandir w (PurePath.to_str (PurePath.parse watch_dir))).
Proof.
  unfold glob_pdf.
  induction (scandir w (PurePath.to_str (PurePath.parse watch_dir)))
    as [|nm listing IH]; intros Hplain; [reflexivity |].
  inversion Hplain as [|? ? Hnm Hrest]; subst. cbn [filter].
  destruct (Glob.fnmatch nm "*.pdf"); [| now apply IH].
  cbn [map]. rewrite (IH Hrest). f_equal.
  destruct (parse_child (parse_parsed watch_dir) Hnm) as (Hparse & Hname & _).
  now rewrite Hparse.
Qed.

End StartupRecords.

(** X17. After the startup pass of a fresh manager the dictionary holds
    exactly one record per classified file, in the order of the
    directory listing, each under the listed file name (which ends in
    [.pdf]): two files never share a record and no record is lost to
    another. *)
Theorem startup_one_record_per_file
    (w : World) (ex : PDFMetadataExtractor) (watch_dir : string)
    (on_disk : option string) :
  Forall plain_name
         (scandir w (PurePath.to_str (PurePath.parse watch_dir))) ->
  NoDup (scandir w (PurePath.to_str (PurePath.parse watch_dir))) ->
  entries (process_existing_pdfs w watch_dir ex (init_store on_disk))
  = map (fun e => (name e, e)) (classified w ex (glob_pdf w watch_dir))
  /\ length (entries (process_existing_pdfs w watch_dir ex
                        (init_store on_disk)))
     = length (classified w ex (glob_pdf w watch_dir))
  /\ (forall k,
         In k (Dict.keys (entries (process_existing_pdfs w watch_dir ex
                                     (init_store on_disk)))) ->
         In k (scandir w (PurePath.to_str (PurePath.parse watch_dir)))
         /\ exists stem, k = (stem ++ ".pdf")%string).
Proof.
  intros Hplain Hnd.
  assert (Hnames : NoDup (map name (classified w ex (glob_pdf w watch_dir)))).
  { apply classified_names_nodup. rewrite glob_pdf_names by assumption.
    now apply NoDup_filter. }
  assert (He : entries (process_existing_pdfs w watch_dir ex
                          (init_store on_disk))
               = map (fun e => (name e, e))
                     (classified w ex (glob_pdf w watch_dir))).
  { rewrite startup_pass_result.
    destruct (classified w ex (glob_pdf w watch_dir)) as [|e es] eqn:Ec;
      [reflexivity |].
    cbn [save entries init_store]. now apply upsert_all_fresh. }
  split; [exact He | split].
  - rewrite He. apply length_map.
  - intros k Hk. rewrite He in Hk. unfold Dict.keys in Hk.
    rewrite map_map in Hk. cbn [fst] in Hk.
    apply classified_names_in in Hk.
    rewrite glob_pdf_names in Hk by assumption.
    apply filter_In in Hk. destruct Hk as [Hlisted Hmatch].
    split; [exact Hlisted | now apply fnmatch_star_pdf].
Qed.

Lemma startup_one_record_per_file_witness :
  entries (process_existing_pdfs Scenario.world "/watch" Sample.acme
                                 (init_store None))
  = map (fun e => (name e, e))
        (classified Scenario.world Sample.acme
                    (glob_pdf Scenario.world "/watch")).
Proof.
  apply (@startup_one_record_per_file Scenario.world Sample.acme "/watch" None).
  - repeat constructor.
  - repeat constructor; cbn; intuition discriminate.
Defined.
